(** * sarama-ai: the structured console logger, the webhook handlers and the
    configuration loader, embedded from the Go sources.

    - [logger]  : package logger (levels, fields, zapLogger, global registry)
    - [cmd]     : package cmd (HTTP handlers, configuration)

    Go values are modelled as the code has them: [Level] is an [int] (here
    [Z]), a [[]Field] is a slice header (array, len, cap) over a heap of
    backing arrays, [append] follows the language rule (write in place while
    the capacity suffices, otherwise allocate), output goes to an event
    trace. *)

From Stdlib Require Import ZArith String Ascii List Lia.
From Stdlib Require Uint63.
From Corelib Require PrimFloat FloatOps SpecFloat.
From stdpp Require Import base list strings gmap pretty.

Local Open Scope Z_scope.

(** ** Text helpers shared by both packages *)

(** The newline byte and the double quote, which Rocq string literals cannot
    spell directly. *)
Definition nl : string := String "010"%char EmptyString.
Definition dq : string := String "034"%char EmptyString.

(** [strings.Join(elems, sep)]. *)
Fixpoint Join (elems : list string) (sep : string) : string :=
  match elems with
  | [] => ""
  | [e] => e
  | e :: rest => e +:+ sep +:+ Join rest sep
  end.

(** [strings.LastIndexByte(s, c)]: the index of the last [c] in [s], or -1. *)
Fixpoint LastIndexByte_from (i : Z) (s : string) (c : ascii) (found : Z) : Z :=
  match s with
  | EmptyString => found
  | String x rest =>
      LastIndexByte_from (i + 1) rest c (if Ascii.eqb x c then i else found)
  end.

Definition LastIndexByte (s : string) (c : ascii) : Z := LastIndexByte_from 0 s c (-1).

(** The slice expression [s[n:]]. *)
Fixpoint string_drop (n : nat) (s : string) : string :=
  match n, s with
  | O, _ => s
  | S n', String _ rest => string_drop n' rest
  | S _, EmptyString => EmptyString
  end.

(** [filepath.Base] on a platform whose separator is [/] and that has no
    volume names: trailing separators are removed, the last element is
    returned; the empty path gives [.] and a path of separators gives [/]. *)
Fixpoint trim_left_sep (s : string) : string :=
  match s with
  | EmptyString => EmptyString
  | String c rest => if Ascii.eqb c "/" then trim_left_sep rest else s
  end.

Fixpoint until_sep (s : string) : string :=
  match s with
  | EmptyString => EmptyString
  | String c rest => if Ascii.eqb c "/" then EmptyString else String c (until_sep rest)
  end.

Definition Base (path : string) : string :=
  if String.eqb path "" then "."
  else
    let last := until_sep (trim_left_sep (String.rev path)) in
    if String.eqb last "" then "/" else String.rev last.

(** Whether the byte [c] occurs in [s]. *)
Fixpoint has_byte (c : ascii) (s : string) : bool :=
  match s with
  | EmptyString => false
  | String x rest => Ascii.eqb x c || has_byte c rest
  end.

(** ** Package logger *)
Module logger.

(** *** Levels (part_001, lines 16-32) *)

(** [type Level int]: every machine integer is a [Level]; the five constants
    are numbered by [iota]. *)
Definition Level := Z.

Definition DebugLevel : Level := 0.
Definition InfoLevel  : Level := 1.
Definition WarnLevel  : Level := 2.
Definition ErrorLevel : Level := 3.
Definition FatalLevel : Level := 4.

Definition levelNames : gmap Z string :=
  {[ DebugLevel := "DEBUG"; InfoLevel := "INFO"; WarnLevel := "WARN";
     ErrorLevel := "ERROR"; FatalLevel := "FATAL" ]}.

(** Indexing a Go map with an absent key yields the zero value. *)
Definition levelName (level : Level) : string := default "" (levelNames !! level).

(** *** Fields (lines 45-49) *)

(** [interface{}] values that reach [%v]. [VStringer s] stands for any value
    whose default print representation is [s] (errors, Stringers, ...). *)
Inductive Value :=
| VNil
| VInt (z : Z)
| VString (s : string)
| VBool (b : bool)
| VStringer (s : string).

Record Field := mkField { Key : string; Val : Value }.

(** The zero [Field], which fills the unused tail of a fresh backing array. *)
Definition zeroField : Field := mkField "" VNil.

(** [fmt.Sprintf("%v", v)]. *)
Definition Sprint_v (v : Value) : string :=
  match v with
  | VNil => "<nil>"
  | VInt z => pretty z
  | VString s => s
  | VBool true => "true"
  | VBool false => "false"
  | VStringer s => s
  end.

(** [fmt.Sprintf("%s=%v", f.Key, f.Value)]. *)
Definition Sprintf_field (f : Field) : string := Key f +:+ "=" +:+ Sprint_v (Val f).

(** *** Slices of fields *)

(** A slice header. All slices of the package start at the base of their
    array (they come from [make] and [append] only), so no offset is kept. *)
Record slice := mkSlice { s_arr : nat; s_len : nat; s_cap : nat }.

(** Backing arrays, addressed by their index in the heap. *)
Abbreviation heap := (list (list Field)).

Definition array_at (h : heap) (a : nat) : list Field := default [] (h !! a).

(** The elements a slice shows: the first [len] cells of its array. *)
Definition elems (h : heap) (s : slice) : list Field :=
  take (s_len s) (array_at h (s_arr s)).

(** [copy(a[i:], xs)] for [i + len(xs) <= len(a)]. *)
Definition write_at (i : nat) (xs : list Field) (a : list Field) : list Field :=
  take i a ++ xs ++ drop (i + length xs) a.

(** [make([]Field, 0)]: length and capacity zero, nothing allocated. *)
Definition make0 : slice := mkSlice 0 0 0.

(** A slice header is sound in a heap when its length is within its capacity
    and its array has at least that many cells (a zero-capacity header, as
    [make0], is sound in every heap). *)
Definition valid (h : heap) (s : slice) : Prop :=
  (s_len s <= s_cap s)%nat /\ (s_cap s <= length (array_at h (s_arr s)))%nat.

(** *** Writers, events, loggers *)

(** An [io.Writer]: the process's standard output or any other sink. *)
Inductive Writer := Stdout | Sink (id : nat).

#[global] Instance Writer_eq_dec : EqDecision Writer.
Proof. solve_decision. Defined.

(** What the process does to the outside world, oldest first. *)
Inductive event :=
| EvWrite (w : Writer) (line : string)     (* a write the sink accepted *)
| EvWriteErr (w : Writer) (line : string)  (* a write the sink refused *)
| EvStdLog (line : string)                 (* log.Print on the standard logger *)
| EvExit (code : Z).                       (* os.Exit *)

(** [zapLogger] (lines 52-59). The mutex [mu] serialises [log] between
    goroutines and has no sequential content. *)
Record zapLogger := mkLogger {
  level : Level;
  output : Writer;
  fields : slice;
  caller : bool;
  callerSkip : Z
}.

(** One stack frame as [runtime.Caller] and [runtime.FuncForPC(pc).Name()]
    report it. *)
Record frame := mkFrame { fr_func : string; fr_file : string; fr_line : Z }.

(** The state a call runs in: the heap of backing arrays, the events so far,
    the package variable [globalLogger], and what the platform answers during
    the call (which sinks refuse writes, the formatted current time, the
    frame found [skip] levels up the stack). *)
Record world := mkWorld {
  w_heap : heap;
  trace : list event;
  globalLogger : zapLogger;
  refuses : Writer -> bool;
  now : string;
  stack : Z -> option frame
}.

Definition set_heap (h : heap) (w : world) : world :=
  mkWorld h (trace w) (globalLogger w) (refuses w) (now w) (stack w).
Definition emit (e : event) (w : world) : world :=
  mkWorld (w_heap w) (trace w ++ [e]) (globalLogger w) (refuses w) (now w) (stack w).
Definition set_global (l : zapLogger) (w : world) : world :=
  mkWorld (w_heap w) (trace w) l (refuses w) (now w) (stack w).

(** *** Calls: state passing with process exit *)

Inductive outcome (A : Type) :=
| Returned (a : A)
| Exited (code : Z).
Arguments Returned {A} a.
Arguments Exited {A} code.

Definition M (A : Type) : Type := world -> outcome A * world.

#[global] Instance M_ret : MRet M := fun A a w => (Returned a, w).
#[global] Instance M_bind : MBind M := fun A B f m w =>
  match m w with
  | (Returned a, w') => f a w'
  | (Exited code, w') => (Exited code, w')
  end.

Definition get_world : M world := fun w => (Returned w, w).
Definition modify (f : world -> world) : M unit := fun w => (Returned tt, f w).

(** [os.Exit(code)]: the process ends, nothing after it runs. *)
Definition os_Exit (code : Z) : M unit := fun w => (Exited code, emit (EvExit code) w).

Notation "x <- c1 ;; c2" := (mbind (fun x => c2) c1)
  (at level 100, c1 at next level, right associativity).
Notation "c1 ;;; c2" := (mbind (fun _ => c2) c1)
  (at level 100, right associativity).

(** The world a call leaves behind, and how the call ended. *)
Definition after {A} (m : M A) (w : world) : world := snd (m w).
Definition result {A} (m : M A) (w : world) : outcome A := fst (m w).

(** The fields a logger shows in a world. *)
Definition fields_of (l : zapLogger) (w : world) : list Field :=
  elems (w_heap w) (fields l).

(** *** The line and the events, as the specification words them *)

(** The fields as space-separated [key=value] tokens after one space; nothing
    at all for an empty list. *)
Definition fields_text (fs : list Field) : string :=
  match fs with
  | [] => ""
  | _ => " " +:+ Join (map Sprintf_field fs) " "
  end.

(** The trailing caller token, absent when no caller was captured. *)
Definition caller_text (c : string) : string :=
  if String.eqb c "" then "" else " caller=" +:+ c.

(** [timestamp [LEVEL] message fields...] and one newline. *)
Definition spec_line (timestamp levelStr msg : string) (all : list Field)
    (callerTok : string) : string :=
  timestamp +:+ " [" +:+ levelStr +:+ "] " +:+ msg +:+ fields_text all
    +:+ caller_text callerTok +:+ nl.

(** What one logging call adds to the trace: the accepted write, or the
    refused write followed by the line on the standard logger. *)
Definition write_events (refused : bool) (out : Writer) (line : string) : list event :=
  if refused then [EvWriteErr out line; EvStdLog line] else [EvWrite out line].

(** How often a trace writes to a sink (accepted or refused). *)
Definition is_write_to (out : Writer) (e : event) : bool :=
  match e with
  | EvWrite o _ | EvWriteErr o _ => bool_decide (o = out)
  | _ => false
  end.

Definition writes_to (out : Writer) (evs : list event) : nat :=
  length (List.filter (is_write_to out) evs).

(** *** The logger proper *)

Section Logger.

(** The capacity the runtime picks when [append] must reallocate, from the
    needed length and the old capacity. The language only promises that the
    new array is large enough. *)
Variable growcap : nat -> nat -> nat.

(** [append(s, xs...)]: when the capacity suffices the new elements are
    written into the array [s] already points to and the result shares it;
    otherwise a new array receives the old elements and the new ones. *)
Definition append (s : slice) (xs : list Field) : M slice := fun w =>
  let h := w_heap w in
  let n := (s_len s + length xs)%nat in
  if (n <=? s_cap s)%nat then
    let a := write_at (s_len s) xs (array_at h (s_arr s)) in
    (Returned (mkSlice (s_arr s) n (s_cap s)), set_heap (<[s_arr s := a]> h) w)
  else
    let c := growcap n (s_cap s) in
    let a := elems h s ++ xs ++ replicate (c - n) zeroField in
    (Returned (mkSlice (length h) n c), set_heap (h ++ [a]) w).

(** [New] (lines 62-70) and [NewWithWriter] (lines 73-81). *)
Definition New (level : Level) : zapLogger :=
  mkLogger level Stdout make0 true 2.

Definition NewWithWriter (level : Level) (output : Writer) : zapLogger :=
  mkLogger level output make0 true 2.

(** [WithField] (lines 118-127). *)
Definition zapLogger_WithField (l : zapLogger) (key : string) (value : Value) : M zapLogger :=
  fs <- append (fields l) [mkField key value] ;;
  mret (mkLogger (level l) (output l) fs (caller l) (callerSkip l)).

(** [WithFields] (lines 130-140). *)
Definition zapLogger_WithFields (l : zapLogger) (fs : list Field) : M zapLogger :=
  newFields <- append (fields l) fs ;;
  mret (mkLogger (level l) (output l) newFields (caller l) (callerSkip l)).

(** The loop of lines 173-178 over [allFields], entered with [i] and the
    string built so far. *)
Fixpoint range_fields (i : nat) (allFields : list Field) (fieldsStr : string) : string :=
  match allFields with
  | [] => fieldsStr
  | f :: rest =>
      let fieldsStr := if (0 <? i)%nat then fieldsStr +:+ " " else fieldsStr in
      range_fields (S i) rest (fieldsStr +:+ Sprintf_field f)
  end.

(** Lines 170-179. *)
Definition build_fieldsStr (allFields : list Field) : string :=
  if (0 <? length allFields)%nat then range_fields 0 allFields " " else "".

(** Lines 151-163: the caller token, empty when capture is off or the stack
    has no such frame. *)
Definition caller_info (l : zapLogger) (w : world) : string :=
  if caller l then
    match stack w (callerSkip l) with
    | Some fr =>
        let funcName := fr_func fr in
        let idx := LastIndexByte funcName "." in
        let funcName :=
          if 0 <=? idx then string_drop (Z.to_nat (idx + 1)) funcName else funcName in
        let file := Base (fr_file fr) in
        file +:+ ":" +:+ pretty (fr_line fr) +:+ " (" +:+ funcName +:+ ")"
    | None => ""
    end
  else "".

(** Lines 165-187: the line built from the combined fields. *)
Definition format_line (l : zapLogger) (w : world) (level : Level) (msg : string)
    (allFields : list Field) : string :=
  let caller := caller_info l w in
  let timestamp := now w in
  let levelStr := levelName level in
  let fieldsStr := build_fieldsStr allFields in
  let fieldsStr :=
    if String.eqb caller "" then fieldsStr else fieldsStr +:+ " caller=" +:+ caller in
  timestamp +:+ " [" +:+ levelStr +:+ "] " +:+ msg +:+ fieldsStr +:+ nl.

(** Lines 189-193: one write to the sink; the standard logger takes the line
    when the sink returns an error. *)
Definition write_line (out : Writer) (logLine : string) : M unit := fun w =>
  if refuses w out then
    (Returned tt, emit (EvStdLog logLine) (emit (EvWriteErr out logLine) w))
  else
    (Returned tt, emit (EvWrite out logLine) w).

(** [log] (lines 143-194). *)
Definition zapLogger_log (l : zapLogger) (level : Level) (msg : string)
    (fs : list Field) : M unit :=
  allFields <- append (fields l) fs ;;
  w <- get_world ;;
  write_line (output l) (format_line l w level msg (elems (w_heap w) allFields)).

(** The level methods (lines 84-115). *)
Definition zapLogger_Debug (l : zapLogger) (msg : string) (fs : list Field) : M unit :=
  if level l <=? DebugLevel then zapLogger_log l DebugLevel msg fs else mret tt.

Definition zapLogger_Info (l : zapLogger) (msg : string) (fs : list Field) : M unit :=
  if level l <=? InfoLevel then zapLogger_log l InfoLevel msg fs else mret tt.

Definition zapLogger_Warn (l : zapLogger) (msg : string) (fs : list Field) : M unit :=
  if level l <=? WarnLevel then zapLogger_log l WarnLevel msg fs else mret tt.

Definition zapLogger_Error (l : zapLogger) (msg : string) (fs : list Field) : M unit :=
  if level l <=? ErrorLevel then zapLogger_log l ErrorLevel msg fs else mret tt.

Definition zapLogger_Fatal (l : zapLogger) (msg : string) (fs : list Field) : M unit :=
  zapLogger_log l FatalLevel msg fs ;;;
  os_Exit 1.

(** The four gated level methods, named, with the level each one logs at. *)
Inductive method := MDebug | MInfo | MWarn | MError.

Definition method_level (m : method) : Level :=
  match m with
  | MDebug => DebugLevel
  | MInfo => InfoLevel
  | MWarn => WarnLevel
  | MError => ErrorLevel
  end.

Definition call_method (m : method) : zapLogger -> string -> list Field -> M unit :=
  match m with
  | MDebug => zapLogger_Debug
  | MInfo => zapLogger_Info
  | MWarn => zapLogger_Warn
  | MError => zapLogger_Error
  end.

(** What deriving [d] from [l] by the fields [new] promises, from world [w]
    to world [w']: [d] shows [l]'s fields and then the new ones and shares
    [l]'s sink, level, caller flag and skip depth; [l] shows what it showed,
    nothing was written, and a later [log] on [l] renders [l]'s own fields
    and the call's, none of [new]. *)
Definition derived (l : zapLogger) (w : world) (new : list Field)
    (d : zapLogger) (w' : world) : Prop :=
  fields_of d w' = fields_of l w ++ new
  /\ output d = output l /\ level d = level l
  /\ caller d = caller l /\ callerSkip d = callerSkip l
  /\ fields_of l w' = fields_of l w
  /\ trace w' = trace w
  /\ forall (lvl : Level) (msg : string) (call : list Field),
       trace (after (zapLogger_log l lvl msg call) w')
       = trace w' ++ write_events (refuses w' (output l)) (output l)
                       (format_line l w' lvl msg (fields_of l w ++ call)).

(** *** The global registry (lines 196-236) *)

(** [var globalLogger Logger = New(InfoLevel)]: the value the package
    variable holds when the process starts. *)
Definition globalLogger_init : zapLogger := New InfoLevel.

Definition SetGlobalLogger (l : zapLogger) : M unit := modify (set_global l).

Definition GetGlobalLogger : M zapLogger := fun w => (Returned (globalLogger w), w).

Definition Debug (msg : string) (fs : list Field) : M unit :=
  fun w => zapLogger_Debug (globalLogger w) msg fs w.
Definition Info (msg : string) (fs : list Field) : M unit :=
  fun w => zapLogger_Info (globalLogger w) msg fs w.
Definition Warn (msg : string) (fs : list Field) : M unit :=
  fun w => zapLogger_Warn (globalLogger w) msg fs w.
Definition Error (msg : string) (fs : list Field) : M unit :=
  fun w => zapLogger_Error (globalLogger w) msg fs w.
Definition Fatal (msg : string) (fs : list Field) : M unit :=
  fun w => zapLogger_Fatal (globalLogger w) msg fs w.
Definition WithField (key : string) (value : Value) : M zapLogger :=
  fun w => zapLogger_WithField (globalLogger w) key value w.
Definition WithFields (fs : list Field) : M zapLogger :=
  fun w => zapLogger_WithFields (globalLogger w) fs w.

End Logger.

(** *** The growth policy of the gc runtime *)

(** The loop of [runtime.nextslicecap] for old capacities of 256 and more:
    grow by (newcap + 3*256)/4 until the needed length fits. Each round adds
    at least 192, so [newLen] rounds of fuel are never used up. *)
Fixpoint nextslicecap_loop (fuel newcap newLen : nat) : nat :=
  let newcap := (newcap + (newcap + 3 * 256) / 4)%nat in
  if (newLen <=? newcap)%nat then newcap
  else match fuel with
       | O => newLen
       | S fuel' => nextslicecap_loop fuel' newcap newLen
       end.

(** [runtime.nextslicecap(newLen, oldCap)]: the needed length when it exceeds
    twice the old capacity, twice the old capacity below 256 elements, the
    loop above otherwise. (The allocator then rounds the array up to a size
    class, which leaves arrays of up to 16 [Field]s, 32 bytes each, as they
    are; for longer arrays the real capacity can be larger than the one
    given here, and nothing below evaluates this policy beyond four cells.) *)
Definition nextslicecap (newLen oldCap : nat) : nat :=
  let doublecap := (oldCap + oldCap)%nat in
  if (doublecap <? newLen)%nat then newLen
  else if (oldCap <? 256)%nat then doublecap
  else nextslicecap_loop newLen oldCap newLen.

(** *** A derivation chain under that policy *)

(** The process as it starts: nothing allocated, nothing written, the global
    logger as initialised, every sink accepting writes, a fixed clock and no
    stack information. *)
Definition world0 : world :=
  mkWorld [] [] globalLogger_init (fun _ => false) "T" (fun _ => None).

(** [l3 := New(InfoLevel).WithField("a",1).WithField("b",2).WithField("c",3)],
    then [l4 := l3.WithField("d",4)]: the logger derived first, with the
    world in which it was derived. *)
Definition derive_l3 : M zapLogger :=
  l1 <- zapLogger_WithField nextslicecap (New InfoLevel) "a" (VInt 1) ;;
  l2 <- zapLogger_WithField nextslicecap l1 "b" (VInt 2) ;;
  zapLogger_WithField nextslicecap l2 "c" (VInt 3).

Definition derive_l3_l4 : M (zapLogger * zapLogger) :=
  l3 <- derive_l3 ;;
  l4 <- zapLogger_WithField nextslicecap l3 "d" (VInt 4) ;;
  mret (l3, l4).

(** The base [l3] and the world it is derived in: three fields in an array
    of four cells. *)
Definition logger3 : zapLogger := mkLogger InfoLevel Stdout (mkSlice 2 3 4) true 2.
Definition world3 : world := after derive_l3 world0.

(** The same three fields behind a minimum level above Fatal, without caller
    capture. *)
Definition silent_logger : zapLogger := mkLogger 7 Stdout (mkSlice 2 3 4) false 2.

(** A logger without caller capture on a sink of its own, and a world in
    which that sink refuses every write. *)
Definition plain_logger : zapLogger := mkLogger InfoLevel (Sink 1) make0 false 2.
Definition world_refusing : world :=
  mkWorld [] [] (New InfoLevel) (fun out => bool_decide (out = Sink 1)) "T" (fun _ => None).

(** The process as it starts, seen from a logging call made by the webhook
    handler: the frame two levels above [log] is that handler. *)
Definition handler_frame : frame :=
  mkFrame "github.com/shubhamgptln/sarama-ai/cmd.handleConfluenceWebhook"
    "/app/cmd/data_parser.go" 35.

Definition world_called : world :=
  mkWorld [] [] globalLogger_init (fun _ => false) "T"
    (fun skip => if skip =? 2 then Some handler_frame else None).

(** A later derivation from the base [l3]: [l3.WithField("e",5)]. *)
Definition then_derive_sibling : M (zapLogger * zapLogger) :=
  p <- derive_l3_l4 ;;
  _ <- zapLogger_WithField nextslicecap (fst p) "e" (VInt 5) ;;
  mret p.

(** A later logging call on the base [l3]: [l3.Info("m", Field{"x", 9})]. *)
Definition then_log_on_base : M (zapLogger * zapLogger) :=
  p <- derive_l3_l4 ;;
  _ <- zapLogger_Info nextslicecap (fst p) "m" [mkField "x" (VInt 9)] ;;
  mret p.

End logger.

(** ** Package cmd *)
Module cmd.

(** *** HTTP handlers (cmd/data_parser.go) *)

(** [ConfluenceWebhook] (lines 15-21). *)
Record ConfluenceWebhook := mkWebhook {
  Event : string;
  Page_ID : Z;
  Page_Title : string
}.

(** The parts of an [*http.Request] a handler can look at. *)
Record Request := mkRequest {
  Method : string;
  URL_Path : string;
  Body : string
}.

Definition MethodPost : string := "POST".
Definition StatusOK : Z := 200.
Definition StatusBadRequest : Z := 400.
Definition StatusMethodNotAllowed : Z := 405.

(** An [http.ResponseWriter]: the header map, the status line once it has
    been written, the body sent so far, and the error [Write] returns when
    the connection is gone. *)
Record ResponseWriter := mkRW {
  rw_header : gmap string string;
  rw_status : option Z;
  rw_body : string;
  rw_err : option string
}.

(** The writer a handler is handed: nothing set, nothing sent. *)
Definition fresh (err : option string) : ResponseWriter := mkRW ∅ None "" err.

Definition Header_Set (k v : string) (w : ResponseWriter) : ResponseWriter :=
  mkRW (<[k := v]> (rw_header w)) (rw_status w) (rw_body w) (rw_err w).

Definition Header_Del (k : string) (w : ResponseWriter) : ResponseWriter :=
  mkRW (delete k (rw_header w)) (rw_status w) (rw_body w) (rw_err w).

(** [w.WriteHeader(code)]: the first call fixes the status. *)
Definition WriteHeader (code : Z) (w : ResponseWriter) : ResponseWriter :=
  match rw_status w with
  | Some _ => w
  | None => mkRW (rw_header w) (Some code) (rw_body w) (rw_err w)
  end.

(** [w.Write(data)]: sends status 200 first if no status was written, then
    the data, unless the connection fails. *)
Definition Write (data : string) (w : ResponseWriter) : ResponseWriter * option string :=
  let w := WriteHeader StatusOK w in
  match rw_err w with
  | Some e => (w, Some e)
  | None => (mkRW (rw_header w) (rw_status w) (rw_body w +:+ data) (rw_err w), None)
  end.

(** [http.Error(w, error, code)]. *)
Definition http_Error (w : ResponseWriter) (error : string) (code : Z) : ResponseWriter :=
  let w := Header_Del "Content-Length" w in
  let w := Header_Set "Content-Type" "text/plain; charset=utf-8" w in
  let w := Header_Set "X-Content-Type-Options" "nosniff" w in
  let w := WriteHeader code w in
  fst (Write (error +:+ nl) w).

Section Handlers.

(** [json.NewDecoder(r.Body).Decode(&webhook)]: the decoded value, or [None]
    when the decoder returns an error. *)
Variable json_Decode : string -> option ConfluenceWebhook.

(** [handleConfluenceWebhook] (lines 23-40): the writer afterwards and the
    lines handed to the standard logger. *)
Definition handleConfluenceWebhook (w : ResponseWriter) (r : Request)
    : ResponseWriter * list string :=
  if negb (String.eqb (Method r) MethodPost) then
    (http_Error w "Method not allowed" StatusMethodNotAllowed, [])
  else
    match json_Decode (Body r) with
    | None => (http_Error w "Invalid payload" StatusBadRequest, [])
    | Some webhook =>
        let line :=
          "Confluence event: " +:+ Event webhook +:+ ", Page: " +:+ Page_Title webhook +:+ nl in
        let w := WriteHeader StatusOK w in
        match Write "Webhook processed" w with
        | (w, Some err) => (w, [line; "Error writing response: " +:+ err +:+ nl])
        | (w, None) => (w, [line])
        end
    end.

(** [healthCheck] (lines 89-93); [now] is [time.Now().Format(time.RFC3339)]. *)
Definition healthCheck (now : string) (w : ResponseWriter) (r : Request) : ResponseWriter :=
  let w := Header_Set "Content-Type" "application/json" w in
  let w := WriteHeader StatusOK w in
  fst (Write ("{" +:+ dq +:+ "status" +:+ dq +:+ ":" +:+ dq +:+ "healthy" +:+ dq +:+ ","
              +:+ dq +:+ "timestamp" +:+ dq +:+ ":" +:+ dq +:+ now +:+ dq +:+ "}") w).

End Handlers.

(** *** Configuration (part_002) *)

(** [time.Duration]: nanoseconds. *)
Definition Duration := Z.
Definition Second : Duration := 1000000000.

Record ServerConfig := mkServerConfig {
  Port : string;
  ReadTimeout : Duration;
  WriteTimeout : Duration;
  IdleTimeout : Duration;
  ShutdownTimeout : Duration;
  MaxHeaderBytes : Z
}.

Record AppConfig := mkAppConfig {
  Environment : string;
  LogLevel : string
}.

Record Config := mkConfig {
  Server : ServerConfig;
  App : AppConfig
}.

Section Loader.

(** [time.ParseDuration] and [strconv.Atoi], [None] for an error. *)
Variable ParseDuration : string -> option Duration.
Variable Atoi : string -> option Z.

(** The process environment; [os.LookupEnv key] is [env !! key]. *)
Variable env : gmap string string.

(** [getEnv] (lines 45-50). *)
Definition getEnv (key defaultValue : string) : string :=
  match env !! key with
  | Some value => value
  | None => defaultValue
  end.

(** [getDurationEnv] (lines 52-59). *)
Definition getDurationEnv (key : string) (defaultValue : Duration) : Duration :=
  match env !! key with
  | Some value =>
      match ParseDuration value with
      | Some duration => duration
      | None => defaultValue
      end
  | None => defaultValue
  end.

(** [getIntEnv] (lines 61-68). *)
Definition getIntEnv (key : string) (defaultValue : Z) : Z :=
  match env !! key with
  | Some value =>
      match Atoi value with
      | Some intVal => intVal
      | None => defaultValue
      end
  | None => defaultValue
  end.

(** [LoadConfig] (lines 28-43). *)
Definition LoadConfig : Config :=
  mkConfig
    (mkServerConfig
       (getEnv "PORT" "8080")
       (getDurationEnv "READ_TIMEOUT" (15 * Second))
       (getDurationEnv "WRITE_TIMEOUT" (15 * Second))
       (getDurationEnv "IDLE_TIMEOUT" (60 * Second))
       (getDurationEnv "SHUTDOWN_TIMEOUT" (30 * Second))
       (Z.shiftl 1 20))
    (mkAppConfig
       (getEnv "ENVIRONMENT" "development")
       (getEnv "LOG_LEVEL" "info")).

End Loader.

(** *** [time.ParseDuration] *)

(** The library function behind [getDurationEnv], as package time writes it:
    an optional sign, then one or more groups of decimal number (with an
    optional fraction) and unit. Unsigned 64-bit values are kept in [Z] with
    the one wrap-around the code can reach written out; the fraction is
    scaled in binary64 arithmetic as in the source. *)

Definition is_digit (c : ascii) : bool :=
  let n := Z.of_nat (nat_of_ascii c) in (48 <=? n) && (n <=? 57).

Definition digit_val (c : ascii) : Z := Z.of_nat (nat_of_ascii c) - 48.

Definition two63 : Z := 2 ^ 63.
Definition two64 : Z := 2 ^ 64.

(** [leadingInt]: the leading digits as a number and the rest; [None] when
    the number passes 1<<63. *)
Fixpoint leadingInt (s : string) (x : Z) : option (Z * string) :=
  match s with
  | String c rest =>
      if is_digit c then
        if two63 / 10 <? x then None
        else
          let x := x * 10 + digit_val c in
          if two63 <? x then None else leadingInt rest x
      else Some (x, s)
  | EmptyString => Some (x, s)
  end.

(** [float64(u)] for [u <= 1<<63] and [uint64(x)] for a finite [x >= 0]. *)
Definition float64_of_uint64 (z : Z) : PrimFloat.float :=
  if z <? two63 then PrimFloat.of_uint63 (Uint63.of_Z z)
  else PrimFloat.mul (PrimFloat.of_uint63 (Uint63.of_Z (z / 2)))
                     (PrimFloat.of_uint63 (Uint63.of_Z 2)).

Definition uint64_of_float64 (x : PrimFloat.float) : Z :=
  match FloatOps.Prim2SF x with
  | SpecFloat.S754_finite false m e =>
      if 0 <=? e then Z.shiftl (Zpos m) e else Z.shiftr (Zpos m) (- e)
  | _ => 0
  end.

(** [leadingFraction]: the digits after the point as a number [x] with the
    scale 10^digits, digits beyond the 64-bit range dropped. *)
Fixpoint leadingFraction (s : string) (x : Z) (scale : PrimFloat.float) (overflow : bool)
    : Z * PrimFloat.float * string :=
  match s with
  | String c rest =>
      if is_digit c then
        if overflow then leadingFraction rest x scale true
        else if (two63 - 1) / 10 <? x then leadingFraction rest x scale true
        else
          let y := x * 10 + digit_val c in
          if two63 <? y then leadingFraction rest x scale true
          else leadingFraction rest y (PrimFloat.mul scale (float64_of_uint64 10)) false
      else (x, scale, s)
  | EmptyString => (x, scale, s)
  end.

(** The unit: everything up to the next digit or point. *)
Fixpoint unit_span (s : string) : string * string :=
  match s with
  | String c rest =>
      if Ascii.eqb c "." || is_digit c then (EmptyString, s)
      else let '(u, r) := unit_span rest in (String c u, r)
  | EmptyString => (EmptyString, EmptyString)
  end.

(** [unitMap]; the two spellings of the micro sign are given by their UTF-8
    bytes. *)
Definition unitMap : gmap string Z :=
  {[ "ns" := 1; "us" := 1000;
     String "194" (String "181" "s") := 1000;
     String "206" (String "188" "s") := 1000;
     "ms" := 1000000; "s" := 1000000000;
     "m" := 60000000000; "h" := 3600000000000 ]}.

(** The loop [for s != ""] with the duration [d] summed so far. Every round
    consumes at least the unit, so [length s] rounds and one more suffice. *)
Fixpoint ParseDuration_loop (fuel : nat) (s : string) (d : Z) : option Z :=
  match fuel with
  | O => None
  | S fuel' =>
      match s with
      | EmptyString => Some d
      | String c _ =>
          if negb (Ascii.eqb c "." || is_digit c) then None
          else
            match leadingInt s 0 with
            | None => None
            | Some (v, s1) =>
                let pre := negb (Nat.eqb (String.length s) (String.length s1)) in
                let '(f, scale, s2, post) :=
                  match s1 with
                  | String "." r =>
                      let '(f, scale, s2) :=
                        leadingFraction r 0 (float64_of_uint64 1) false in
                      (f, scale, s2, negb (Nat.eqb (String.length r) (String.length s2)))
                  | _ => (0, float64_of_uint64 1, s1, false)
                  end in
                if negb pre && negb post then None
                else
                  let '(u, s3) := unit_span s2 in
                  if String.eqb u "" then None
                  else
                    match unitMap !! u with
                    | None => None
                    | Some unit =>
                        if two63 / unit <? v then None
                        else
                          let v := v * unit in
                          let v' :=
                            if 0 <? f then
                              v + uint64_of_float64
                                    (PrimFloat.mul (float64_of_uint64 f)
                                       (PrimFloat.div (float64_of_uint64 unit) scale))
                            else v in
                          if (0 <? f) && (two63 <? v') then None
                          else
                            let d := (d + v') mod two64 in
                            if two63 <? d then None else ParseDuration_loop fuel' s3 d
                    end
            end
      end
  end.

Definition time_ParseDuration (s : string) : option Duration :=
  let '(neg, s) :=
    match s with
    | String "-" r => (true, r)
    | String "+" r => (false, r)
    | _ => (false, s)
    end in
  if String.eqb s "0" then Some 0
  else if String.eqb s "" then None
  else
    match ParseDuration_loop (S (String.length s)) s 0 with
    | None => None
    | Some d =>
        if neg then Some (- d)
        else if two63 - 1 <? d then None else Some d
    end.

(** The configuration every entry of which is its default. *)
Definition defaultConfig : Config :=
  mkConfig
    (mkServerConfig "8080" (15 * Second) (15 * Second) (60 * Second) (30 * Second) 1048576)
    (mkAppConfig "development" "info").

(** The variables [LoadConfig] reads. *)
Definition config_variables : list string :=
  ["PORT"; "READ_TIMEOUT"; "WRITE_TIMEOUT"; "IDLE_TIMEOUT"; "SHUTDOWN_TIMEOUT";
   "ENVIRONMENT"; "LOG_LEVEL"].

(** *** [strconv.Atoi] *)

(** The digits of a decimal numeral as a number; [None] for any other byte. *)
Fixpoint digits_value (s : string) (acc : Z) : option Z :=
  match s with
  | EmptyString => Some acc
  | String c r => if is_digit c then digits_value r (acc * 10 + digit_val c) else None
  end.

(** [strconv.ParseInt(s, 10, 64)]: an optional sign and one or more decimal
    digits, in the range of [int64]; [None] for a syntax or range error. *)
Definition strconv_ParseInt (s : string) : option Z :=
  let '(neg, ds) :=
    match s with
    | String "-" r => (true, r)
    | String "+" r => (false, r)
    | _ => (false, s)
    end in
  if String.eqb ds "" then None
  else
    match digits_value ds 0 with
    | None => None
    | Some n =>
        let v := if neg : bool then - n else n in
        if (- two63 <=? v) && (v <? two63) then Some v else None
    end.

(** [strconv.Atoi] where [int] has 64 bits: its fast path for short strings
    and [ParseInt(s, 10, 0)] accept the same strings with the same values. *)
Definition strconv_Atoi (s : string) : option Z := strconv_ParseInt s.

(** *** [StartServer] (cmd/data_parser.go, lines 42-56 and 77) *)

Inductive handler := handler_handleConfluenceWebhook | handler_healthCheck.

(** The fields of [http.Server] that [StartServer] sets. *)
Record http_Server := mkServer {
  Addr : string;
  Handler : list (string * handler);
  srv_ReadTimeout : Duration;
  srv_WriteTimeout : Duration;
  srv_IdleTimeout : Duration;
  srv_MaxHeaderBytes : Z
}.

(** The patterns registered on the mux (lines 45-47), in order. *)
Definition StartServer_mux : list (string * handler) :=
  [("/webhook/confluence", handler_handleConfluenceWebhook);
   ("/health", handler_healthCheck)].

Section Server.

Variable ParseDuration : string -> option Duration.
Variable env : gmap string string.

(** The server value of lines 49-56. *)
Definition StartServer_server (port : string) : http_Server :=
  let config := LoadConfig ParseDuration env in
  mkServer (":" +:+ port) StartServer_mux
    (ReadTimeout (Server config)) (WriteTimeout (Server config))
    (IdleTimeout (Server config)) (MaxHeaderBytes (Server config)).

(** The deadline of the shutdown context (line 77). *)
Definition StartServer_shutdown_timeout (port : string) : Duration :=
  let config := LoadConfig ParseDuration env in
  ShutdownTimeout (Server config).

End Server.

(** *** [encoding/json]: [Decoder.Decode] into a [ConfluenceWebhook] *)

(** The decoder behind [handleConfluenceWebhook], as package json works on
    the first JSON value of the body: the scanner delimits and checks the
    value, then the value is stored into the struct field by field. *)

Definition byte_of (c : ascii) : Z := Z.of_nat (nat_of_ascii c).

Definition in_range (lo hi : Z) (c : ascii) : bool :=
  (lo <=? byte_of c) && (byte_of c <=? hi).

(** A scanned value; strings and keys keep the text between their quotes,
    numbers keep their literal. *)
#[warnings="-register-all"] Inductive json :=
| JNull
| JBool (b : bool)
| JNumber (literal : string)
| JString (raw : string)
| JArray (elements : list json)
| JObject (members : list (string * json)).

(** [isSpace]: space, tab, carriage return, newline. *)
Definition isSpace (c : ascii) : bool :=
  Ascii.eqb c " " || Ascii.eqb c "009" || Ascii.eqb c "013" || Ascii.eqb c "010".

Fixpoint skip_space (s : string) : string :=
  match s with
  | String c rest => if isSpace c then skip_space rest else s
  | EmptyString => s
  end.

Definition is_hex (c : ascii) : bool :=
  is_digit c || in_range 97 102 c || in_range 65 70 c.

Definition hex_val (c : ascii) : Z :=
  if is_digit c then byte_of c - 48
  else if 97 <=? byte_of c then byte_of c - 97 + 10 else byte_of c - 65 + 10.

Definition cons_to {A : Type} (c : ascii) (r : option (string * A)) : option (string * A) :=
  match r with
  | Some (s, a) => Some (String c s, a)
  | None => None
  end.

(** [stateInString] and its escape states, entered after the opening quote:
    the text up to the closing quote and what follows it; [None] for a
    control byte, a wrong escape or the end of the input. *)
Fixpoint scan_string (s : string) : option (string * string) :=
  match s with
  | EmptyString => None
  | String c r =>
      if Ascii.eqb c "034" then Some (EmptyString, r)
      else if Ascii.eqb c "\" then
        match r with
        | String e r2 =>
            if Ascii.eqb e "u" then
              match r2 with
              | String h1 (String h2 (String h3 (String h4 r3))) =>
                  if is_hex h1 && is_hex h2 && is_hex h3 && is_hex h4 then
                    cons_to c (cons_to e (cons_to h1 (cons_to h2 (cons_to h3 (cons_to h4
                      (scan_string r3))))))
                  else None
              | _ => None
              end
            else if Ascii.eqb e "b" || Ascii.eqb e "f" || Ascii.eqb e "n" || Ascii.eqb e "r"
                    || Ascii.eqb e "t" || Ascii.eqb e "\" || Ascii.eqb e "/"
                    || Ascii.eqb e "034" then
              cons_to c (cons_to e (scan_string r2))
            else None
        | EmptyString => None
        end
      else if byte_of c <? 32 then None
      else cons_to c (scan_string r)
  end.

Fixpoint span_digits (s : string) : string * string :=
  match s with
  | String c r =>
      if is_digit c then let '(d, rest) := span_digits r in (String c d, rest)
      else (EmptyString, s)
  | EmptyString => (EmptyString, s)
  end.

(** [stateNeg], [state0], [state1], [stateDot], [stateE] and their
    successors: the number literal at the head of [s] and what follows it. *)
Definition scan_number (s : string) : option (string * string) :=
  let '(sign, s1) :=
    match s with
    | String "-" r => ("-", r)
    | _ => ("", s)
    end in
  let int_part :=
    match s1 with
    | String "0" r => Some ("0", r)
    | String c r =>
        if is_digit c then let '(d, rest) := span_digits r in Some (String c d, rest)
        else None
    | EmptyString => None
    end in
  match int_part with
  | None => None
  | Some (i, s2) =>
      let frac :=
        match s2 with
        | String "." r =>
            let '(d, rest) := span_digits r in
            if String.eqb d "" then None else Some ("." +:+ d, rest)
        | _ => Some ("", s2)
        end in
      match frac with
      | None => None
      | Some (f, s3) =>
          let exp :=
            match s3 with
            | String e r =>
                if Ascii.eqb e "e" || Ascii.eqb e "E" then
                  let '(sg, r1) :=
                    match r with
                    | String "+" r' => ("+", r')
                    | String "-" r' => ("-", r')
                    | _ => ("", r)
                    end in
                  let '(d, rest) := span_digits r1 in
                  if String.eqb d "" then None
                  else Some (String e sg +:+ d, rest)
                else Some ("", s3)
            | EmptyString => Some ("", s3)
            end in
          match exp with
          | None => None
          | Some (x, s4) => Some (sign +:+ i +:+ f +:+ x, s4)
          end
      end
  end.

(** The rest of [s] after the prefix [p], when [s] starts with it. *)
Fixpoint strip_prefix (p s : string) : option string :=
  match p, s with
  | EmptyString, _ => Some s
  | String a p', String b s' => if Ascii.eqb a b then strip_prefix p' s' else None
  | String _ _, EmptyString => None
  end.

Definition maxNestingDepth : Z := 10000.

(** The scanner on one value, with the tree it has seen. [depth] counts the
    objects and arrays around the value; every call consumes input, so fuel
    of twice the length of [s] and two is never used up. *)
Fixpoint parse_value (fuel : nat) (depth : Z) (s : string) : option (json * string) :=
  match fuel with
  | O => None
  | S fuel' =>
      match skip_space s with
      | EmptyString => None
      | String c r =>
          if Ascii.eqb c "{" then
            if maxNestingDepth <? depth + 1 then None
            else
              match skip_space r with
              | String "}" r' => Some (JObject [], r')
              | r1 =>
                  match parse_members fuel' (depth + 1) r1 with
                  | Some (ms, r') => Some (JObject ms, r')
                  | None => None
                  end
              end
          else if Ascii.eqb c "[" then
            if maxNestingDepth <? depth + 1 then None
            else
              match skip_space r with
              | String "]" r' => Some (JArray [], r')
              | r1 =>
                  match parse_elements fuel' (depth + 1) r1 with
                  | Some (vs, r') => Some (JArray vs, r')
                  | None => None
                  end
              end
          else if Ascii.eqb c "034" then
            match scan_string r with
            | Some (raw, r') => Some (JString raw, r')
            | None => None
            end
          else if Ascii.eqb c "t" then option_map (pair (JBool true)) (strip_prefix "rue" r)
          else if Ascii.eqb c "f" then option_map (pair (JBool false)) (strip_prefix "alse" r)
          else if Ascii.eqb c "n" then option_map (pair JNull) (strip_prefix "ull" r)
          else if Ascii.eqb c "-" || is_digit c then
            match scan_number (String c r) with
            | Some (lit, r') => Some (JNumber lit, r')
            | None => None
            end
          else None
      end
  end
with parse_members (fuel : nat) (depth : Z) (s : string)
    : option (list (string * json) * string) :=
  match fuel with
  | O => None
  | S fuel' =>
      match skip_space s with
      | String "034" r =>
          match scan_string r with
          | None => None
          | Some (key, r1) =>
              match skip_space r1 with
              | String ":" r2 =>
                  match parse_value fuel' depth r2 with
                  | None => None
                  | Some (v, r3) =>
                      match skip_space r3 with
                      | String "," r4 =>
                          match parse_members fuel' depth r4 with
                          | Some (ms, r5) => Some ((key, v) :: ms, r5)
                          | None => None
                          end
                      | String "}" r4 => Some ([(key, v)], r4)
                      | _ => None
                      end
                  end
              | _ => None
              end
          end
      | _ => None
      end
  end
with parse_elements (fuel : nat) (depth : Z) (s : string) : option (list json * string) :=
  match fuel with
  | O => None
  | S fuel' =>
      match parse_value fuel' depth s with
      | None => None
      | Some (v, r1) =>
          match skip_space r1 with
          | String "," r2 =>
              match parse_elements fuel' depth r2 with
              | Some (vs, r3) => Some (v :: vs, r3)
              | None => None
              end
          | String "]" r2 => Some ([v], r2)
          | _ => None
          end
      end
  end.

(** [Decoder.readValue] on a body that is read to its end: the first value
    of the stream. An object or array ends with its closing bracket and a
    number or literal with the first byte that cannot continue it; what
    follows is left for a later [Decode]. [None] for a syntax error and for
    input that ends before the value does. *)
Definition readValue (body : string) : option json :=
  option_map fst (parse_value (2 * String.length body + 2) 0 body).

(** [utf8.AppendRune]. *)
Definition chr (z : Z) : ascii := ascii_of_nat (Z.to_nat z).

Definition RuneError : Z := 65533.

Definition AppendRune (r : Z) : string :=
  let r := if (r <? 0) || (1114111 <? r) || ((55296 <=? r) && (r <=? 57343))
           then RuneError else r in
  if r <? 128 then String (chr r) ""
  else if r <? 2048 then String (chr (192 + r / 64)) (String (chr (128 + r mod 64)) "")
  else if r <? 65536 then
    String (chr (224 + r / 4096))
      (String (chr (128 + (r / 64) mod 64)) (String (chr (128 + r mod 64)) ""))
  else
    String (chr (240 + r / 262144))
      (String (chr (128 + (r / 4096) mod 64))
         (String (chr (128 + (r / 64) mod 64)) (String (chr (128 + r mod 64)) ""))).

(** The width [utf8.DecodeRune] reports for a well-formed encoding at the
    head of [s]; zero where it reports [RuneError] with width one. *)
Definition rune_width (s : string) : nat :=
  match s with
  | EmptyString => 0%nat
  | String c0 r =>
      let b0 := byte_of c0 in
      if b0 <? 128 then 1%nat
      else if (194 <=? b0) && (b0 <=? 223) then
        match r with
        | String c1 _ => if in_range 128 191 c1 then 2%nat else 0%nat
        | _ => 0%nat
        end
      else if (224 <=? b0) && (b0 <=? 239) then
        match r with
        | String c1 (String c2 _) =>
            if in_range (if b0 =? 224 then 160 else 128) (if b0 =? 237 then 159 else 191) c1
               && in_range 128 191 c2 then 3%nat else 0%nat
        | _ => 0%nat
        end
      else if (240 <=? b0) && (b0 <=? 244) then
        match r with
        | String c1 (String c2 (String c3 _)) =>
            if in_range (if b0 =? 240 then 144 else 128) (if b0 =? 244 then 143 else 191) c1
               && in_range 128 191 c2 && in_range 128 191 c3 then 4%nat else 0%nat
        | _ => 0%nat
        end
      else 0%nat
  end.

(** The slice expression [s[:n]]. *)
Fixpoint string_take (n : nat) (s : string) : string :=
  match n, s with
  | S n', String c rest => String c (string_take n' rest)
  | _, _ => EmptyString
  end.

(** [getu4]: the code unit of an escape [\uXXXX] at the head of [s], or -1. *)
Definition getu4 (s : string) : Z :=
  match s with
  | String "\" (String "u" (String h1 (String h2 (String h3 (String h4 _))))) =>
      if is_hex h1 && is_hex h2 && is_hex h3 && is_hex h4 then
        ((hex_val h1 * 16 + hex_val h2) * 16 + hex_val h3) * 16 + hex_val h4
      else -1
  | _ => -1
  end.

Definition IsSurrogate (r : Z) : bool := (55296 <=? r) && (r <? 57344).

(** [utf16.DecodeRune]. *)
Definition utf16_DecodeRune (r1 r2 : Z) : Z :=
  if (55296 <=? r1) && (r1 <? 56320) && (56320 <=? r2) && (r2 <? 57344)
  then (r1 - 55296) * 1024 + (r2 - 56320) + 65536
  else RuneError.

Definition unescape (e : ascii) : ascii :=
  if Ascii.eqb e "b" then "008"
  else if Ascii.eqb e "f" then "012"
  else if Ascii.eqb e "n" then "010"
  else if Ascii.eqb e "r" then "013"
  else if Ascii.eqb e "t" then "009"
  else e.

(** [unquoteBytes] on the text between the quotes of a scanned string:
    escapes are replaced, well-formed UTF-8 is copied, every other byte
    becomes U+FFFD. Each round consumes input. *)
Fixpoint unquote_loop (fuel : nat) (s : string) : string :=
  match fuel with
  | O => ""
  | S fuel' =>
      match s with
      | EmptyString => ""
      | String c r =>
          if Ascii.eqb c "\" then
            match r with
            | EmptyString => ""
            | String e r2 =>
                if Ascii.eqb e "u" then
                  let rr := getu4 s in
                  let r3 := string_drop 6 s in
                  if IsSurrogate rr then
                    let dec := utf16_DecodeRune rr (getu4 r3) in
                    if dec =? RuneError then AppendRune RuneError +:+ unquote_loop fuel' r3
                    else AppendRune dec +:+ unquote_loop fuel' (string_drop 6 r3)
                  else AppendRune rr +:+ unquote_loop fuel' r3
                else String (unescape e) (unquote_loop fuel' r2)
            end
          else if byte_of c <? 128 then String c (unquote_loop fuel' r)
          else
            match rune_width s with
            | O => AppendRune RuneError +:+ unquote_loop fuel' r
            | n => string_take n s +:+ unquote_loop fuel' (string_drop n s)
            end
      end
  end.

Definition unquote (raw : string) : string := unquote_loop (String.length raw) raw.

(** [foldName] on names without the letters k and s, the only ones a
    non-ASCII rune folds to: ASCII letters go to upper case. *)
Definition upper (c : ascii) : ascii :=
  if in_range 97 122 c then chr (byte_of c - 32) else c.

Fixpoint foldName (s : string) : string :=
  match s with
  | EmptyString => EmptyString
  | String c r => String (upper c) (foldName r)
  end.

(** Whether an object key selects the struct field tagged [name]: by its
    exact name or, failing that, by its folded name. *)
Definition is_field (name : string) (raw_key : string) : bool :=
  String.eqb (unquote raw_key) name
  || String.eqb (foldName (unquote raw_key)) (foldName name).

(** [literalStore], [object] and [array] on a [string] field: the new
    value, and whether no [UnmarshalTypeError] was saved. *)
Definition store_string (v : json) (old : string) : string * bool :=
  match v with
  | JString raw => (unquote raw, true)
  | JNull => (old, true)
  | _ => (old, false)
  end.

(** The same on an [int] field of 64 bits. *)
Definition store_int (v : json) (old : Z) : Z * bool :=
  match v with
  | JNumber lit =>
      match strconv_ParseInt lit with
      | Some n => (n, true)
      | None => (old, false)
      end
  | JNull => (old, true)
  | _ => (old, false)
  end.

(** One member of the object stored into [Page]. *)
Definition store_page_member (acc : Z * string * bool) (m : string * json)
    : Z * string * bool :=
  let '(id, title, ok) := acc in
  let '(key, v) := m in
  if is_field "id" key then
    let '(id', ok') := store_int v id in (id', title, ok && ok')
  else if is_field "title" key then
    let '(title', ok') := store_string v title in (id, title', ok && ok')
  else acc.

Definition store_page (v : json) (old : Z * string) : Z * string * bool :=
  match v with
  | JObject ms => fold_left store_page_member ms (old, true)
  | JNull => (old, true)
  | _ => (old, false)
  end.

(** One member of the object stored into the [ConfluenceWebhook]. *)
Definition store_member (acc : ConfluenceWebhook * bool) (m : string * json)
    : ConfluenceWebhook * bool :=
  let '(wh, ok) := acc in
  let '(key, v) := m in
  if is_field "event" key then
    let '(e, ok') := store_string v (Event wh) in
    (mkWebhook e (Page_ID wh) (Page_Title wh), ok && ok')
  else if is_field "page" key then
    let '(id, title, ok') := store_page v (Page_ID wh, Page_Title wh) in
    (mkWebhook (Event wh) id title, ok && ok')
  else acc.

(** [decodeState.unmarshal] into a [*ConfluenceWebhook]. *)
Definition unmarshal (v : json) (wh : ConfluenceWebhook) : ConfluenceWebhook * bool :=
  match v with
  | JObject ms => fold_left store_member ms (wh, true)
  | JNull => (wh, true)
  | _ => (wh, false)
  end.

(** [json.NewDecoder(r.Body).Decode(&webhook)] with [webhook] the zero
    struct: the struct afterwards, or [None] when [Decode] returns an error
    (syntax, end of input, or a saved type error). *)
Definition Decoder_Decode (body : string) : option ConfluenceWebhook :=
  match readValue body with
  | None => None
  | Some v =>
      let '(wh, ok) := unmarshal v (mkWebhook "" 0 "") in
      if ok then Some wh else None
  end.

(** *** Bodies *)

(** Decimal digits only. *)
Fixpoint all_digits (s : string) : bool :=
  match s with
  | EmptyString => true
  | String c r => is_digit c && all_digits r
  end.

(** The bytes a JSON value can begin with, and whether the first byte of a
    body after its leading white space is one of them. *)
Definition starts_value (c : ascii) : bool :=
  Ascii.eqb c "{" || Ascii.eqb c "[" || Ascii.eqb c "034" || Ascii.eqb c "t"
  || Ascii.eqb c "f" || Ascii.eqb c "n" || Ascii.eqb c "-" || is_digit c.

Definition value_start (body : string) : bool :=
  match skip_space body with
  | String c _ => starts_value c
  | EmptyString => false
  end.

(** Text that stands for itself between JSON quotes: ASCII from the space
    on, without the quote and the backslash. *)
Definition is_plain (c : ascii) : bool :=
  in_range 32 127 c && negb (Ascii.eqb c "034") && negb (Ascii.eqb c "\").

Fixpoint plain (s : string) : bool :=
  match s with
  | EmptyString => true
  | String c r => is_plain c && plain r
  end.

(** The payload of a webhook with the given event, page id and title. *)
Definition webhook_body (event : string) (id : Z) (title : string) : string :=
  "{" +:+ dq +:+ "event" +:+ dq +:+ ":" +:+ dq +:+ event +:+ dq +:+ ","
  +:+ dq +:+ "page" +:+ dq +:+ ":{" +:+ dq +:+ "id" +:+ dq +:+ ":" +:+ pretty id +:+ ","
  +:+ dq +:+ "title" +:+ dq +:+ ":" +:+ dq +:+ title +:+ dq +:+ "}}".

(** The same payload with the page id given as a JSON string. *)
Definition webhook_body_quoted_id (event id title : string) : string :=
  "{" +:+ dq +:+ "event" +:+ dq +:+ ":" +:+ dq +:+ event +:+ dq +:+ ","
  +:+ dq +:+ "page" +:+ dq +:+ ":{" +:+ dq +:+ "id" +:+ dq +:+ ":" +:+ dq +:+ id +:+ dq
  +:+ "," +:+ dq +:+ "title" +:+ dq +:+ ":" +:+ dq +:+ title +:+ dq +:+ "}}".

(** An object with one member, a string. *)
Definition single_member_body (key value : string) : string :=
  "{" +:+ dq +:+ key +:+ dq +:+ ":" +:+ dq +:+ value +:+ dq +:+ "}".

(** The body [healthCheck] writes for the formatted time [now]. *)
Definition health_body (now : string) : string :=
  "{" +:+ dq +:+ "status" +:+ dq +:+ ":" +:+ dq +:+ "healthy" +:+ dq +:+ ","
  +:+ dq +:+ "timestamp" +:+ dq +:+ ":" +:+ dq +:+ now +:+ dq +:+ "}".

End cmd.

(** * Facts *)

(** stdpp keeps [String.append] from unfolding under [simpl]; its defining
    equations are stated once and used by rewriting. *)
Lemma append_cons (c : ascii) (s t : string) : String c s +:+ t = String c (s +:+ t).
Proof. reflexivity. Qed.

Lemma append_nil_r (s : string) : s +:+ "" = s.
Proof. induction s as [|c s IH]; [done | by rewrite append_cons, IH]. Qed.

Lemma append_assoc (a b c : string) : (a +:+ b) +:+ c = a +:+ (b +:+ c).
Proof. induction a as [|x a IH]; [done | by rewrite !append_cons, IH]. Qed.

Module logger_facts.
Import logger.

(** ** The fields loop builds the joined tokens *)

Lemma range_fields_later (i : nat) (fs : list Field) (acc : string) :
  range_fields (S i) fs acc
  = acc +:+ fold_right (fun f r => " " +:+ Sprintf_field f +:+ r) "" fs.
Proof.
  revert i acc. induction fs as [|f fs IH]; intros i acc; simpl.
  - by rewrite append_nil_r.
  - rewrite IH. by rewrite !append_assoc.
Qed.

Lemma Join_cons (e : string) (rest : list string) :
  Join (e :: rest) " " = e +:+ fold_right (fun x r => " " +:+ x +:+ r) "" rest.
Proof.
  revert e. induction rest as [|x rest IH]; intros e.
  - simpl. by rewrite append_nil_r.
  - change (Join (e :: x :: rest) " ") with (e +:+ " " +:+ Join (x :: rest) " ").
    by rewrite IH.
Qed.

Lemma fold_right_map_fields (fs : list Field) :
  fold_right (fun f r => " " +:+ Sprintf_field f +:+ r) "" fs
  = fold_right (fun x r => " " +:+ x +:+ r) "" (map Sprintf_field fs).
Proof. induction fs as [|f fs IH]; simpl; [done | by rewrite IH]. Qed.

Lemma build_fieldsStr_spec (fs : list Field) : build_fieldsStr fs = fields_text fs.
Proof.
  destruct fs as [|f fs]; [done|].
  unfold build_fieldsStr, fields_text. simpl length. simpl Nat.ltb. cbv iota.
  simpl range_fields. rewrite range_fields_later.
  change (map Sprintf_field (f :: fs)) with (Sprintf_field f :: map Sprintf_field fs).
  rewrite Join_cons, fold_right_map_fields. by rewrite !append_assoc.
Qed.

(** ** Backing arrays *)

Lemma array_at_ge (h : heap) (i : nat) : (length h <= i)%nat -> array_at h i = [].
Proof. intros H. unfold array_at. by rewrite lookup_ge_None_2. Qed.

Lemma array_at_insert_eq (h : heap) (i : nat) (a : list Field) :
  (i < length h)%nat -> array_at (<[i:=a]> h) i = a.
Proof. intros H. unfold array_at. by rewrite list_lookup_insert_eq. Qed.

Lemma array_at_insert_ne (h : heap) (i j : nat) (a : list Field) :
  i <> j -> array_at (<[i:=a]> h) j = array_at h j.
Proof. intros H. unfold array_at. by rewrite list_lookup_insert_ne. Qed.

Lemma array_at_app_old (h : heap) (a : list Field) (i : nat) :
  (i < length h)%nat -> array_at (h ++ [a]) i = array_at h i.
Proof. intros H. unfold array_at. by rewrite lookup_app_l. Qed.

Lemma array_at_app_new (h : heap) (a : list Field) : array_at (h ++ [a]) (length h) = a.
Proof. unfold array_at. by rewrite list_lookup_middle. Qed.

Lemma length_write_at (i : nat) (xs a : list Field) :
  (i + length xs <= length a)%nat -> length (write_at i xs a) = length a.
Proof.
  intros H. unfold write_at.
  rewrite !length_app, length_take, length_drop. lia.
Qed.

(** A slice whose array lies beyond the heap shows nothing and has no room. *)
Lemma valid_beyond (h : heap) (s : slice) :
  valid h s -> (length h <= s_arr s)%nat -> s_len s = O /\ s_cap s = O.
Proof.
  intros [Hlen Hcap] Hge. rewrite array_at_ge in Hcap by done. simpl in Hcap. lia.
Qed.

Lemma valid_make0 (h : heap) : valid h make0.
Proof. unfold valid, make0; simpl. lia. Qed.

Lemma length_elems (h : heap) (s : slice) : valid h s -> length (elems h s) = s_len s.
Proof. intros [Hlen Hcap]. unfold elems. rewrite length_take. lia. Qed.

Section Facts.

Variable growcap : nat -> nat -> nat.

(** ** [append] *)

(** What [append] returns and leaves behind, for a sound slice: the result
    shows the old elements followed by the new ones, the argument still shows
    what it showed, every sound slice stays sound, and so is the result when
    the growth policy returns a capacity that fits. *)
Lemma append_spec (s : slice) (xs : list Field) (w : world) :
  valid (w_heap w) s ->
  exists s' h',
    append growcap s xs w = (Returned s', set_heap h' w)
    /\ elems h' s' = elems (w_heap w) s ++ xs
    /\ elems h' s = elems (w_heap w) s
    /\ ((forall n c : nat, (n <= growcap n c)%nat) -> valid h' s')
    /\ (forall t, valid (w_heap w) t -> valid h' t).
Proof.
  intros Hv. pose proof Hv as [Hlen Hcap].
  unfold append. cbv zeta.
  destruct (s_len s + length xs <=? s_cap s)%nat eqn:Hfit.
  - apply Nat.leb_le in Hfit.
    set (a := array_at (w_heap w) (s_arr s)) in *.
    set (a' := write_at (s_len s) xs a).
    assert (Hla' : length a' = length a) by (apply length_write_at; lia).
    assert (Hat : array_at (<[s_arr s:=a']> (w_heap w)) (s_arr s) = a').
    { destruct (decide (s_arr s < length (w_heap w))%nat) as [Hin|Hout].
      - by apply array_at_insert_eq.
      - destruct (valid_beyond _ _ Hv) as [H0 H1]; [lia|].
        rewrite list_insert_ge by lia. fold a.
        assert (xs = []) as -> by (destruct xs; [done | simpl in Hfit; lia]).
        unfold a', write_at. rewrite H0. simpl. by rewrite drop_0. }
    eexists _, _. split; [reflexivity|].
    split; [|split; [|split]].
    + unfold elems; simpl. rewrite Hat. fold a. unfold a', write_at.
      rewrite app_assoc. rewrite take_app_length'; [done|].
      rewrite length_app, length_take. lia.
    + unfold elems. rewrite Hat. fold a. unfold a', write_at.
      rewrite take_app_length'; [done|]. rewrite length_take. lia.
    + intros _. unfold valid; simpl. rewrite Hat. lia.
    + intros t [Ht1 Ht2]. split; [done|].
      destruct (decide (s_arr s = s_arr t)) as [Heq|Hne].
      * rewrite <- Heq. rewrite Hat, Hla'. subst a. by rewrite Heq.
      * by rewrite array_at_insert_ne.
  - apply Nat.leb_gt in Hfit.
    eexists _, _. split; [reflexivity|].
    split; [|split; [|split]].
    + unfold elems at 1; simpl. rewrite array_at_app_new.
      rewrite app_assoc. rewrite take_app_length'; [done|].
      rewrite length_app, length_elems by done. lia.
    + unfold elems.
      destruct (decide (s_arr s < length (w_heap w))%nat) as [Hin|Hout].
      * by rewrite array_at_app_old.
      * destruct (valid_beyond _ _ Hv) as [H0 H1]; [lia|]. by rewrite H0.
    + intros growcap_fits. unfold valid; simpl. rewrite array_at_app_new.
      pose proof (growcap_fits (s_len s + length xs)%nat (s_cap s)) as Hg.
      split; [done|].
      rewrite !length_app, length_elems, length_replicate by done. lia.
    + intros t Ht.
      destruct (decide (s_arr t < length (w_heap w))%nat) as [Hin|Hout].
      * unfold valid. rewrite array_at_app_old by done. exact Ht.
      * destruct (valid_beyond _ _ Ht) as [H0 H1]; [lia|].
        unfold valid. rewrite H0, H1. lia.
Qed.

(** ** [log] and the derivations, one call at a time *)

Lemma format_line_set_heap (l : zapLogger) (h : heap) (w : world) (lvl : Level)
    (msg : string) (all : list Field) :
  format_line l (set_heap h w) lvl msg all = format_line l w lvl msg all.
Proof. reflexivity. Qed.

(** [log] returns, leaves one write on the trace (with the fallback line when
    the sink refuses), renders the logger's own fields before the call's, and
    changes nothing a sound slice shows about itself. *)
Lemma log_spec (l : zapLogger) (lvl : Level) (msg : string) (fs : list Field) (w : world) :
  valid (w_heap w) (fields l) ->
  exists h',
    zapLogger_log growcap l lvl msg fs w
    = (Returned tt,
       mkWorld h'
         (trace w ++ write_events (refuses w (output l)) (output l)
                       (format_line l w lvl msg (fields_of l w ++ fs)))
         (globalLogger w) (refuses w) (now w) (stack w))
    /\ elems h' (fields l) = fields_of l w
    /\ (forall t, valid (w_heap w) t -> valid h' t).
Proof.
  intros Hv.
  destruct (append_spec (fields l) fs w Hv) as (s' & h' & Hrun & Hnew & Hold & _ & Hpres).
  exists h'. split; [|by split].
  unfold zapLogger_log, mbind, M_bind. rewrite Hrun.
  unfold get_world, write_line. cbn [w_heap set_heap refuses].
  rewrite Hnew. fold (fields_of l w). rewrite format_line_set_heap.
  unfold write_events, emit, set_heap. cbn.
  destruct (refuses w (output l)); [|done].
  by rewrite <- app_assoc.
Qed.

(** A derivation returns a logger that shows the receiver's fields followed
    by the new ones and shares its other settings; only the heap changes, and
    the receiver shows what it showed. *)
Lemma WithFields_spec (l : zapLogger) (fs : list Field) (w : world) :
  valid (w_heap w) (fields l) ->
  exists d h',
    zapLogger_WithFields growcap l fs w = (Returned d, set_heap h' w)
    /\ elems h' (fields d) = fields_of l w ++ fs
    /\ elems h' (fields l) = fields_of l w
    /\ (level d, output d, caller d, callerSkip d)
       = (level l, output l, caller l, callerSkip l)
    /\ ((forall n c : nat, (n <= growcap n c)%nat) -> valid h' (fields d))
    /\ (forall t, valid (w_heap w) t -> valid h' t).
Proof.
  intros Hv.
  destruct (append_spec (fields l) fs w Hv) as (s' & h' & Hrun & Hnew & Hold & Hval & Hpres).
  eexists _, h'. split.
  { unfold zapLogger_WithFields, mbind, M_bind. rewrite Hrun. reflexivity. }
  done.
Qed.

Lemma WithField_spec (l : zapLogger) (key : string) (value : Value) (w : world) :
  valid (w_heap w) (fields l) ->
  exists d h',
    zapLogger_WithField growcap l key value w = (Returned d, set_heap h' w)
    /\ elems h' (fields d) = fields_of l w ++ [mkField key value]
    /\ elems h' (fields l) = fields_of l w
    /\ (level d, output d, caller d, callerSkip d)
       = (level l, output l, caller l, callerSkip l)
    /\ ((forall n c : nat, (n <= growcap n c)%nat) -> valid h' (fields d))
    /\ (forall t, valid (w_heap w) t -> valid h' t).
Proof.
  intros Hv.
  destruct (append_spec (fields l) [mkField key value] w Hv)
    as (s' & h' & Hrun & Hnew & Hold & Hval & Hpres).
  eexists _, h'. split.
  { unfold zapLogger_WithField, mbind, M_bind. rewrite Hrun. reflexivity. }
  done.
Qed.

(** A gated method whose level is enabled is [log] at that level; one that is
    not enabled does nothing at all. *)
Lemma call_method_enabled (m : method) (l : zapLogger) (msg : string) (fs : list Field) :
  level l <= method_level m ->
  call_method growcap m l msg fs = zapLogger_log growcap l (method_level m) msg fs.
Proof.
  intros H. apply Z.leb_le in H.
  destruct m; cbn [call_method method_level] in *;
    unfold zapLogger_Debug, zapLogger_Info, zapLogger_Warn, zapLogger_Error;
    by rewrite H.
Qed.

Lemma call_method_disabled (m : method) (l : zapLogger) (msg : string) (fs : list Field)
    (w : world) :
  method_level m < level l ->
  call_method growcap m l msg fs w = (Returned tt, w).
Proof.
  intros H. apply Z.leb_gt in H.
  destruct m; cbn [call_method method_level] in *;
    unfold zapLogger_Debug, zapLogger_Info, zapLogger_Warn, zapLogger_Error;
    by rewrite H.
Qed.

Lemma writes_to_write_events (refused : bool) (out : Writer) (line : string) :
  writes_to out (write_events refused out line) = 1%nat.
Proof.
  unfold writes_to, write_events.
  destruct refused; simpl; by rewrite bool_decide_eq_true_2.
Qed.

Lemma no_exit_in_write_events (refused : bool) (out : Writer) (line : string) (code : Z) :
  ~ In (EvExit code) (write_events refused out line).
Proof. unfold write_events. destruct refused; simpl; intuition discriminate. Qed.

End Facts.

(** ** The growth policy of the gc runtime fits *)

Lemma nextslicecap_loop_fits (fuel newcap newLen : nat) :
  (newLen <= nextslicecap_loop fuel newcap newLen)%nat.
Proof.
  revert newcap. induction fuel as [|fuel IH]; intros newcap; simpl;
    destruct (newLen <=? _)%nat eqn:E; try apply Nat.leb_le in E; auto.
Qed.

Lemma nextslicecap_fits (newLen oldCap : nat) : (newLen <= nextslicecap newLen oldCap)%nat.
Proof.
  unfold nextslicecap. cbv zeta.
  destruct (oldCap + oldCap <? newLen)%nat eqn:E1; [done|].
  apply Nat.ltb_ge in E1.
  destruct (oldCap <? 256)%nat; [done|]. apply nextslicecap_loop_fits.
Qed.

(** ** The derivation chain, evaluated *)

Lemma derive_l3_world0 : derive_l3 world0 = (Returned logger3, world3).
Proof. reflexivity. Qed.

Lemma valid_logger3 : valid (w_heap world3) (fields logger3).
Proof. vm_compute. lia. Qed.

Section Claims.

Variable growcap : nat -> nat -> nat.

(** C2: a call of Debug, Info, Warn or Error below the logger's minimum level
    returns and leaves the world as it was; at or above the minimum level it
    returns after exactly one write of the formatted line to the logger's
    sink. *)
Theorem C2_level_gating (m : method) (l : zapLogger) (msg : string) (fs : list Field)
    (w : world) :
  valid (w_heap w) (fields l) ->
  let line := format_line l w (method_level m) msg (fields_of l w ++ fs) in
  let evs := write_events (refuses w (output l)) (output l) line in
  (method_level m < level l -> call_method growcap m l msg fs w = (Returned tt, w))
  /\ (level l <= method_level m ->
      result (call_method growcap m l msg fs) w = Returned tt
      /\ trace (after (call_method growcap m l msg fs) w) = trace w ++ evs
      /\ writes_to (output l) evs = 1%nat).
Proof.
  intros Hv line evs. split.
  - apply call_method_disabled.
  - intros Hen. rewrite (call_method_enabled growcap) by done.
    destruct (log_spec growcap l (method_level m) msg fs w Hv) as (h' & Hrun & _).
    unfold result, after. rewrite Hrun. cbn [fst snd trace].
    split; [done|]. split; [done|]. apply writes_to_write_events.
Qed.

(** C3: WithFields and WithField return a new logger that shows the
    receiver's fields followed by the new ones and shares its sink, level,
    caller flag and skip depth; the receiver is not changed, and a logging
    call on it afterwards renders its original fields and the call's, never
    the fields added on the derived logger. *)
Theorem C3_derivation_frame (l : zapLogger) (fs : list Field) (key : string)
    (value : Value) (w : world) :
  valid (w_heap w) (fields l) ->
  (exists d w',
     zapLogger_WithFields growcap l fs w = (Returned d, w')
     /\ derived growcap l w fs d w')
  /\ (exists d w',
       zapLogger_WithField growcap l key value w = (Returned d, w')
       /\ derived growcap l w [mkField key value] d w').
Proof.
  intros Hv.
  assert (Hlog : forall h', elems h' (fields l) = fields_of l w ->
            (forall t, valid (w_heap w) t -> valid h' t) ->
            forall lvl msg call,
              trace (after (zapLogger_log growcap l lvl msg call) (set_heap h' w))
              = trace (set_heap h' w)
                ++ write_events (refuses (set_heap h' w) (output l)) (output l)
                     (format_line l (set_heap h' w) lvl msg (fields_of l w ++ call))).
  { intros h' Hold Hpres lvl msg call.
    destruct (log_spec growcap l lvl msg call (set_heap h' w)) as (h2 & Hrun & _).
    { apply Hpres, Hv. }
    unfold after. rewrite Hrun. cbn [snd trace].
    unfold fields_of at 1. cbn [w_heap set_heap]. by rewrite Hold. }
  split.
  - destruct (WithFields_spec growcap l fs w Hv) as (d & h' & Hrun & Hnew & Hold & Hset & _ & Hpres).
    exists d, (set_heap h' w). split; [done|].
    injection Hset as H1 H2 H3 H4.
    unfold derived. repeat split; try done. by apply Hlog.
  - destruct (WithField_spec growcap l key value w Hv)
      as (d & h' & Hrun & Hnew & Hold & Hset & _ & Hpres).
    exists d, (set_heap h' w). split; [done|].
    injection Hset as H1 H2 H3 H4.
    unfold derived. repeat split; try done. by apply Hlog.
Qed.

(** The line of the source and the line of the specification agree. *)
Lemma format_line_spec (l : zapLogger) (w : world) (lvl : Level) (msg : string)
    (all : list Field) :
  format_line l w lvl msg all
  = spec_line (now w) (levelName lvl) msg all (caller_info l w).
Proof.
  unfold format_line, spec_line, caller_text. cbv zeta.
  rewrite build_fieldsStr_spec.
  destruct (String.eqb (caller_info l w) ""); [done|].
  by rewrite !append_assoc.
Qed.

Lemma caller_info_off (l : zapLogger) (w : world) : caller l = false -> caller_info l w = "".
Proof. intros H. unfold caller_info. by rewrite H. Qed.

(** C4: every emitted line is the timestamp, the bracketed level name, the
    message, the fields (the logger's before the call's, each list in its own
    order, duplicates kept) as space-separated key=value tokens, the caller
    token when one was captured, and one newline. Without caller capture and
    with the fields a=1, b=x the Info line for message m is exactly
    [T [INFO] m a=1 b=x] and a newline; with no fields nothing follows the
    message but the newline. *)
Theorem C4_line_format (l : zapLogger) (lvl : Level) (msg : string) (fs : list Field)
    (w : world) :
  valid (w_heap w) (fields l) ->
  let all := fields_of l w ++ fs in
  let line := format_line l w lvl msg all in
  trace (after (zapLogger_log growcap l lvl msg fs) w)
  = trace w ++ write_events (refuses w (output l)) (output l) line
  /\ line = spec_line (now w) (levelName lvl) msg all (caller_info l w)
  /\ (caller l = false ->
      line = now w +:+ " [" +:+ levelName lvl +:+ "] " +:+ msg
             +:+ fields_text all +:+ nl)
  /\ (caller l = false -> lvl = InfoLevel -> msg = "m" ->
      all = [mkField "a" (VInt 1); mkField "b" (VString "x")] ->
      line = now w +:+ " [INFO] m a=1 b=x" +:+ nl)
  /\ (caller l = false -> all = [] ->
      line = now w +:+ " [" +:+ levelName lvl +:+ "] " +:+ msg +:+ nl).
Proof.
  intros Hv all line.
  assert (Hoff : caller l = false ->
            line = now w +:+ " [" +:+ levelName lvl +:+ "] " +:+ msg
                   +:+ fields_text all +:+ nl).
  { intros Hc. unfold line. rewrite format_line_spec, caller_info_off by done.
    reflexivity. }
  split; [|split; [|split; [|split]]].
  - destruct (log_spec growcap l lvl msg fs w Hv) as (h' & Hrun & _).
    unfold after. by rewrite Hrun.
  - apply format_line_spec.
  - exact Hoff.
  - intros Hc -> -> Hall. rewrite Hoff by done. rewrite Hall. reflexivity.
  - intros Hc Hall. rewrite Hoff by done. rewrite Hall. reflexivity.
Qed.

(** Whatever the logger's minimum level, Fatal writes the formatted line and
    then ends the process with status 1; the four other level methods return
    to their caller, add no exit to the trace, and do nothing once the minimum
    level is above theirs. *)
Lemma fatal_writes_then_exits (l : zapLogger) (msg : string) (fs : list Field)
    (w : world) :
  valid (w_heap w) (fields l) ->
  let line := format_line l w FatalLevel msg (fields_of l w ++ fs) in
  result (zapLogger_Fatal growcap l msg fs) w = Exited 1
  /\ trace (after (zapLogger_Fatal growcap l msg fs) w)
     = trace w ++ write_events (refuses w (output l)) (output l) line ++ [EvExit 1]
  /\ (forall m : method,
        result (call_method growcap m l msg fs) w = Returned tt
        /\ exists evs,
             trace (after (call_method growcap m l msg fs) w) = trace w ++ evs
             /\ forall code, ~ In (EvExit code) evs)
  /\ (forall m : method,
        method_level m < level l -> call_method growcap m l msg fs w = (Returned tt, w)).
Proof.
  intros Hv line. split; [|split; [|split]].
  - destruct (log_spec growcap l FatalLevel msg fs w Hv) as (h' & Hrun & _).
    unfold result, zapLogger_Fatal, mbind, M_bind. by rewrite Hrun.
  - destruct (log_spec growcap l FatalLevel msg fs w Hv) as (h' & Hrun & _).
    unfold after, zapLogger_Fatal, mbind, M_bind. rewrite Hrun.
    unfold os_Exit, emit. cbn [snd trace]. by rewrite <- app_assoc.
  - intros m. destruct (Z_lt_le_dec (method_level m) (level l)) as [Hoff|Hon].
    + unfold result, after. rewrite (call_method_disabled growcap m l msg fs w Hoff).
      split; [done|]. exists []. split; [by rewrite app_nil_r | intros code []].
    + rewrite (call_method_enabled growcap) by done.
      destruct (log_spec growcap l (method_level m) msg fs w Hv) as (h' & Hrun & _).
      unfold result, after. rewrite Hrun. split; [done|].
      eexists. split; [reflexivity|]. intros code. apply no_exit_in_write_events.
  - intros m. apply call_method_disabled.
Qed.

(** C6: when the sink refuses the write, the line that was formatted goes to
    the standard logger instead; the level methods still return normally, and
    Fatal still ends the process with status 1 after the fallback line. *)
Theorem C6_write_failure_falls_back (l : zapLogger) (lvl : Level) (msg : string)
    (fs : list Field) (w : world) :
  valid (w_heap w) (fields l) ->
  refuses w (output l) = true ->
  let line := fun lvl => format_line l w lvl msg (fields_of l w ++ fs) in
  result (zapLogger_log growcap l lvl msg fs) w = Returned tt
  /\ trace (after (zapLogger_log growcap l lvl msg fs) w)
     = trace w ++ [EvWriteErr (output l) (line lvl); EvStdLog (line lvl)]
  /\ (forall m : method, result (call_method growcap m l msg fs) w = Returned tt)
  /\ result (zapLogger_Fatal growcap l msg fs) w = Exited 1
  /\ trace (after (zapLogger_Fatal growcap l msg fs) w)
     = trace w ++ [EvWriteErr (output l) (line FatalLevel);
                   EvStdLog (line FatalLevel); EvExit 1].
Proof.
  intros Hv Href line.
  destruct (fatal_writes_then_exits l msg fs w Hv) as (Hexit & Htrace & Hret & _).
  destruct (log_spec growcap l lvl msg fs w Hv) as (h' & Hrun & _).
  rewrite Href in *. unfold result, after in *. rewrite Hrun.
  repeat split; try done. intros m. apply Hret.
Qed.

(** While the receiver's array has a free cell, [WithField] writes the new
    field into that array and returns a header on the same array. *)
Lemma WithField_in_place (l : zapLogger) (key : string) (value : Value) (w : world) :
  (s_len (fields l) < s_cap (fields l))%nat ->
  zapLogger_WithField growcap l key value w
  = (Returned (mkLogger (level l) (output l)
                 (mkSlice (s_arr (fields l)) (s_len (fields l) + 1) (s_cap (fields l)))
                 (caller l) (callerSkip l)),
     set_heap (<[s_arr (fields l) :=
                   write_at (s_len (fields l)) [mkField key value]
                     (array_at (w_heap w) (s_arr (fields l)))]> (w_heap w)) w).
Proof.
  intros Hspare.
  unfold zapLogger_WithField, mbind, M_bind, append. cbv zeta. cbn [length].
  assert ((s_len (fields l) + 1 <=? s_cap (fields l))%nat = true) as ->
    by (apply Nat.leb_le; lia).
  reflexivity.
Qed.

(** Under every growth policy: when a logger has a free cell in its array, two
    derivations from it return headers on the same cells, so the field added
    by the second replaces the field the first derived logger showed. *)
Lemma spare_capacity_aliases (l : zapLogger) (k1 k2 : string) (v1 v2 : Value) (w : world) :
  valid (w_heap w) (fields l) ->
  (s_len (fields l) < s_cap (fields l))%nat ->
  exists d1 w1 d2 w2,
    zapLogger_WithField growcap l k1 v1 w = (Returned d1, w1)
    /\ fields_of d1 w1 = fields_of l w ++ [mkField k1 v1]
    /\ zapLogger_WithField growcap l k2 v2 w1 = (Returned d2, w2)
    /\ fields_of d1 w2 = fields_of l w ++ [mkField k2 v2].
Proof.
  intros Hv Hspare.
  destruct (WithField_spec growcap l k1 v1 w Hv)
    as (d1 & h1 & Hrun1 & Hnew1 & Hold1 & _ & _ & Hpres1).
  destruct (WithField_spec growcap l k2 v2 (set_heap h1 w) (Hpres1 _ Hv))
    as (d2 & h2 & Hrun2 & Hnew2 & _).
  exists d1, (set_heap h1 w), d2, (set_heap h2 (set_heap h1 w)).
  repeat split; try done.
  assert (fields d1 = fields d2) as Hsame.
  { rewrite WithField_in_place in Hrun1, Hrun2 by done.
    injection Hrun1 as <- _. injection Hrun2 as <- _. reflexivity. }
  unfold fields_of in *. cbn [w_heap set_heap] in *.
  by rewrite Hsame, Hnew2, Hold1.
Qed.

(** C9: the global logger starts as a logger on standard output at level
    Info; SetGlobalLogger replaces it and GetGlobalLogger returns the current
    one without changing anything; each package-level function, called after
    SetGlobalLogger(l), runs l's method, whatever logger was global before. *)
Theorem C9_global_registry :
  (output globalLogger_init = Stdout /\ level globalLogger_init = InfoLevel
   /\ globalLogger world0 = globalLogger_init)
  /\ (forall (l : zapLogger) (w : world),
        SetGlobalLogger l w = (Returned tt, set_global l w)
        /\ GetGlobalLogger w = (Returned (globalLogger w), w)
        /\ (SetGlobalLogger l ;;; GetGlobalLogger) w = (Returned l, set_global l w))
  /\ (forall (l : zapLogger) (msg : string) (fs : list Field) (w : world),
        (SetGlobalLogger l ;;; Debug growcap msg fs) w
        = zapLogger_Debug growcap l msg fs (set_global l w)
        /\ (SetGlobalLogger l ;;; Info growcap msg fs) w
          = zapLogger_Info growcap l msg fs (set_global l w)
        /\ (SetGlobalLogger l ;;; Warn growcap msg fs) w
          = zapLogger_Warn growcap l msg fs (set_global l w)
        /\ (SetGlobalLogger l ;;; Error growcap msg fs) w
          = zapLogger_Error growcap l msg fs (set_global l w)
        /\ (SetGlobalLogger l ;;; Fatal growcap msg fs) w
          = zapLogger_Fatal growcap l msg fs (set_global l w)
        /\ (SetGlobalLogger l ;;; WithFields growcap fs) w
          = zapLogger_WithFields growcap l fs (set_global l w))
  /\ (forall (l : zapLogger) (key : string) (value : Value) (w : world),
        (SetGlobalLogger l ;;; WithField growcap key value) w
        = zapLogger_WithField growcap l key value (set_global l w)).
Proof. repeat split. Qed.

End Claims.

(** C1: in the chain [l3 := New(Info).WithField(a,1).WithField(b,2).WithField(c,3)],
    [l4 := l3.WithField(d,4)], the logger [l4] shows a, b, c, d when it is
    derived; after the later derivation [l3.WithField(e,5)] it shows a, b, c,
    e, and after the later call [l3.Info(m, x=9)] it shows a, b, c, x: the
    derivation wrote into the array [l3] and [l4] share instead of copying it. *)
Theorem C1_derived_fields_overwritten :
  exists l4 w1 w2 w3,
    derive_l3_l4 world0 = (Returned (logger3, l4), w1)
    /\ then_derive_sibling world0 = (Returned (logger3, l4), w2)
    /\ then_log_on_base world0 = (Returned (logger3, l4), w3)
    /\ fields (logger3) = mkSlice 2 3 4 /\ fields l4 = mkSlice 2 4 4
    /\ fields_of l4 w1
       = [mkField "a" (VInt 1); mkField "b" (VInt 2); mkField "c" (VInt 3);
          mkField "d" (VInt 4)]
    /\ fields_of l4 w2
       = [mkField "a" (VInt 1); mkField "b" (VInt 2); mkField "c" (VInt 3);
          mkField "e" (VInt 5)]
    /\ fields_of l4 w3
       = [mkField "a" (VInt 1); mkField "b" (VInt 2); mkField "c" (VInt 3);
          mkField "x" (VInt 9)].
Proof. eexists _, _, _, _. repeat split. Qed.

Lemma C2_level_gating_witness :
  valid (w_heap world3) (fields logger3)
  /\ call_method nextslicecap MDebug logger3 "m" [] world3 = (Returned tt, world3)
  /\ trace (after (call_method nextslicecap MWarn logger3 "m" []) world3)
     = [EvWrite Stdout ("T [WARN] m a=1 b=2 c=3" +:+ nl)].
Proof.
  split; [exact valid_logger3|]. split.
  - apply (C2_level_gating nextslicecap MDebug logger3 "m" [] world3 valid_logger3). vm_compute. reflexivity.
  - apply (C2_level_gating nextslicecap MWarn logger3 "m" [] world3 valid_logger3). vm_compute. discriminate.
Defined.

Lemma C3_derivation_frame_witness :
  valid (w_heap world3) (fields logger3)
  /\ exists d w',
       zapLogger_WithField nextslicecap logger3 "d" (VInt 4) world3 = (Returned d, w')
       /\ fields_of d w' = fields_of logger3 world3 ++ [mkField "d" (VInt 4)]
       /\ fields_of logger3 w' = fields_of logger3 world3.
Proof.
  split; [exact valid_logger3|].
  destruct (C3_derivation_frame nextslicecap logger3 [] "d" (VInt 4) world3 valid_logger3)
    as [_ (d & w' & Hrun & Hnew & _ & _ & _ & _ & Hold & _)].
  exists d, w'. by repeat split.
Defined.

Lemma C4_line_format_witness :
  valid (w_heap world0) (fields plain_logger)
  /\ trace (after (zapLogger_log nextslicecap plain_logger InfoLevel "m"
                    [mkField "a" (VInt 1); mkField "b" (VString "x")]) world0)
     = [EvWrite (Sink 1) ("T [INFO] m a=1 b=x" +:+ nl)]
  /\ trace (after (zapLogger_log nextslicecap plain_logger InfoLevel "m" []) world0)
     = [EvWrite (Sink 1) ("T [INFO] m" +:+ nl)].
Proof.
  split; [apply valid_make0|]. split.
  - destruct (C4_line_format nextslicecap plain_logger InfoLevel "m"
                [mkField "a" (VInt 1); mkField "b" (VString "x")] world0
                (valid_make0 _)) as (Htrace & _ & _ & Hex & _).
    rewrite Htrace. rewrite Hex; reflexivity.
  - destruct (C4_line_format nextslicecap plain_logger InfoLevel "m" [] world0
                (valid_make0 _)) as (Htrace & _ & _ & _ & Hnone).
    rewrite Htrace. rewrite Hnone; reflexivity.
Defined.

Lemma fatal_writes_then_exits_witness :
  valid (w_heap world3) (fields silent_logger)
  /\ result (zapLogger_Fatal nextslicecap silent_logger "m" []) world3 = Exited 1
  /\ trace (after (zapLogger_Fatal nextslicecap silent_logger "m" []) world3)
     = [EvWrite Stdout ("T [FATAL] m a=1 b=2 c=3" +:+ nl); EvExit 1]
  /\ zapLogger_Error nextslicecap silent_logger "m" [] world3 = (Returned tt, world3).
Proof.
  split; [exact valid_logger3|].
  destruct (fatal_writes_then_exits nextslicecap silent_logger "m" [] world3
              valid_logger3) as (Hexit & Htrace & _ & Hoff).
  split; [exact Hexit|]. split; [exact Htrace|].
  apply (Hoff MError). reflexivity.
Defined.

Lemma C6_write_failure_falls_back_witness :
  valid (w_heap world_refusing) (fields plain_logger)
  /\ refuses world_refusing (output plain_logger) = true
  /\ trace (after (zapLogger_log nextslicecap plain_logger ErrorLevel "m" []) world_refusing)
     = [EvWriteErr (Sink 1) ("T [ERROR] m" +:+ nl); EvStdLog ("T [ERROR] m" +:+ nl)]
  /\ result (zapLogger_Error nextslicecap plain_logger "m" []) world_refusing = Returned tt.
Proof.
  split; [apply valid_make0|]. split; [reflexivity|].
  destruct (C6_write_failure_falls_back nextslicecap plain_logger ErrorLevel "m" []
              world_refusing (valid_make0 _) eq_refl) as (_ & Htrace & Hret & _).
  split; [exact Htrace | exact (Hret MError)].
Defined.

(** * More about the logger *)

(** ** Short names *)

Lemma has_byte_app (c : ascii) (a b : string) :
  has_byte c (a +:+ b) = has_byte c a || has_byte c b.
Proof.
  induction a as [|x a IH]; [done|].
  rewrite append_cons. cbn [has_byte]. rewrite IH. by rewrite orb_assoc.
Qed.

Lemma has_byte_rev_app (c : ascii) (s acc : string) :
  has_byte c (String.rev_app s acc) = has_byte c s || has_byte c acc.
Proof.
  revert acc. induction s as [|x s IH]; intros acc; [done|].
  cbn [String.rev_app has_byte]. rewrite IH. cbn [has_byte].
  destruct (Ascii.eqb x c), (has_byte c s); done.
Qed.

Lemma has_byte_rev (c : ascii) (s : string) : has_byte c (String.rev s) = has_byte c s.
Proof. unfold String.rev. rewrite has_byte_rev_app. cbn [has_byte]. apply orb_false_r. Qed.

Lemma has_byte_until_sep (s : string) : has_byte "/" (until_sep s) = false.
Proof.
  induction s as [|x s IH]; [done|]. cbn [until_sep].
  destruct (Ascii.eqb x "/") eqn:E; [done|]. cbn [has_byte]. by rewrite E, IH.
Qed.

Lemma rev_app_nonempty (s acc : string) : acc <> "" -> String.rev_app s acc <> "".
Proof.
  revert acc. induction s as [|x s IH]; intros acc Hacc; [done|].
  cbn [String.rev_app]. by apply IH.
Qed.

Lemma rev_nonempty (s : string) : s <> "" -> String.rev s <> "".
Proof.
  destruct s as [|x s]; [done|]. intros _. unfold String.rev. cbn [String.rev_app].
  by apply rev_app_nonempty.
Qed.

(** [filepath.Base] returns a name without separators, or the separator
    alone; never the empty string. *)
Lemma Base_short (path : string) :
  Base path <> "" /\ (has_byte "/" (Base path) = false \/ Base path = "/").
Proof.
  unfold Base. destruct (String.eqb path ""); [by split; [|left]|].
  destruct (String.eqb (until_sep (trim_left_sep (String.rev path))) "") eqn:E;
    [by split; [|right]|].
  apply String.eqb_neq in E. split; [by apply rev_nonempty|].
  left. rewrite has_byte_rev. apply has_byte_until_sep.
Qed.

(** [strings.LastIndexByte]: the value for "not found" when the byte does not
    occur, otherwise the position of an occurrence after which there is none. *)
Lemma LastIndexByte_from_spec (c : ascii) (s : string) (i found : Z) :
  (has_byte c s = false -> LastIndexByte_from i s c found = found)
  /\ (has_byte c s = true ->
      exists pre suf, s = pre +:+ String c suf /\ has_byte c suf = false
        /\ LastIndexByte_from i s c found = i + Z.of_nat (String.length pre)).
Proof.
  revert i found. induction s as [|x s IH]; intros i found; [by split|].
  cbn [has_byte LastIndexByte_from].
  destruct (IH (i + 1) (if Ascii.eqb x c then i else found)) as [IHno IHyes].
  destruct (has_byte c s) eqn:Hs.
  - rewrite orb_true_r. split; [done|]. intros _.
    destruct (IHyes eq_refl) as (pre & suf & -> & Hsuf & Hidx).
    exists (String x pre), suf. rewrite append_cons. split; [done|]. split; [done|].
    rewrite Hidx. cbn [String.length]. lia.
  - rewrite orb_false_r. rewrite (IHno eq_refl). split.
    + by intros ->.
    + intros Hx. rewrite Hx. apply Ascii.eqb_eq in Hx as ->.
      exists "", s. cbn [String.length]. split; [done|]. split; [done|]. lia.
Qed.

Lemma string_drop_app (pre : string) (c : ascii) (suf : string) :
  string_drop (S (String.length pre)) (pre +:+ String c suf) = suf.
Proof. induction pre as [|x pre IH]; [done|]. rewrite append_cons. exact IH. Qed.

(** The fields as the loop of [log] concatenates them. *)
Lemma fields_text_fold (fs : list Field) :
  fields_text fs = fold_right (fun f r => " " +:+ Sprintf_field f +:+ r) "" fs.
Proof.
  destruct fs as [|f fs]; [done|].
  unfold fields_text.
  change (map Sprintf_field (f :: fs)) with (Sprintf_field f :: map Sprintf_field fs).
  by rewrite Join_cons, fold_right_map_fields.
Qed.

(** X5: with caller capture on and a frame found, the line ends in the token
    [caller=file:line (func)]: the file is the base name of the frame's file
    (no directory separator in it, unless the path is separators only), and
    the function is what follows the last dot of the frame's function name
    (no dot in it; what precedes it is nothing or ends in a dot). *)
Theorem caller_token_is_short (l : zapLogger) (w : world) (fr : frame) (lvl : Level)
    (msg : string) (all : list Field) :
  caller l = true -> stack w (callerSkip l) = Some fr ->
  exists file func pre,
    caller_info l w = file +:+ ":" +:+ pretty (fr_line fr) +:+ " (" +:+ func +:+ ")"
    /\ file = Base (fr_file fr)
    /\ (has_byte "/" file = false \/ file = "/")
    /\ fr_func fr = pre +:+ func
    /\ has_byte "." func = false
    /\ (pre = "" \/ exists p, pre = p +:+ ".")
    /\ format_line l w lvl msg all
       = now w +:+ " [" +:+ levelName lvl +:+ "] " +:+ msg +:+ fields_text all
         +:+ " caller=" +:+ caller_info l w +:+ nl.
Proof.
  intros Hc Hst.
  destruct (LastIndexByte_from_spec "." (fr_func fr) 0 (-1)) as [Hno Hyes].
  assert (Hshape : exists func pre,
            caller_info l w
            = Base (fr_file fr) +:+ ":" +:+ pretty (fr_line fr) +:+ " (" +:+ func +:+ ")"
            /\ fr_func fr = pre +:+ func /\ has_byte "." func = false
            /\ (pre = "" \/ exists p, pre = p +:+ ".")).
  { unfold caller_info. rewrite Hc, Hst. cbv zeta. unfold LastIndexByte.
    destruct (has_byte "." (fr_func fr)) eqn:Hdot.
    - destruct (Hyes eq_refl) as (pre & suf & Hf & Hsuf & Hidx).
      rewrite Hidx.
      assert ((0 <=? 0 + Z.of_nat (String.length pre)) = true) as -> by (apply Z.leb_le; lia).
      assert (Z.to_nat (0 + Z.of_nat (String.length pre) + 1) = S (String.length pre))
        as -> by lia.
      exists suf, (pre +:+ "."). split.
      { by rewrite Hf, string_drop_app. }
      split; [by rewrite Hf, append_assoc|].
      split; [done|]. right. by exists pre.
    - rewrite (Hno eq_refl). cbn [Z.leb Z.compare].
      exists (fr_func fr), "". split; [done|]. split; [done|]. split; [done|]. by left. }
  destruct Hshape as (func & pre & Hinfo & Hf & Hfunc & Hpre).
  destruct (Base_short (fr_file fr)) as [Hne Hsl].
  exists (Base (fr_file fr)), func, pre.
  split; [done|]. split; [done|]. split; [done|]. split; [done|]. split; [done|].
  split; [done|].
  rewrite format_line_spec. unfold spec_line, caller_text.
  assert (String.eqb (caller_info l w) "" = false) as ->.
  { rewrite Hinfo. destruct (Base (fr_file fr)); [done|]. by rewrite append_cons. }
  by rewrite !append_assoc.
Qed.

Lemma caller_token_is_short_witness :
  caller (New InfoLevel) = true
  /\ stack world_called (callerSkip (New InfoLevel)) = Some handler_frame
  /\ caller_info (New InfoLevel) world_called
     = "data_parser.go:35 (handleConfluenceWebhook)"
  /\ format_line (New InfoLevel) world_called InfoLevel "m" []
     = "T [INFO] m caller=data_parser.go:35 (handleConfluenceWebhook)" +:+ nl.
Proof.
  split; [reflexivity|]. split; [reflexivity|].
  destruct (caller_token_is_short (New InfoLevel) world_called handler_frame InfoLevel
              "m" [] eq_refl eq_refl) as (file & func & pre & _ & _ & _ & _ & _ & _ & Hline).
  split; [reflexivity|]. rewrite Hline. reflexivity.
Defined.

(** X8: [log] renders keys, values and the message as they are, without
    quoting: a field whose value contains a space and an equals sign gives the
    same line as two fields, and a message that ends in [key=value] gives the
    same line as the shorter message with that field. *)
Theorem rendering_is_not_injective (l : zapLogger) (w : world) (lvl : Level)
    (msg k1 v1 k2 v2 : string) (fs : list Field) :
  format_line l w lvl msg
    (fs ++ [mkField k1 (VString (v1 +:+ " " +:+ k2 +:+ "=" +:+ v2))])
  = format_line l w lvl msg (fs ++ [mkField k1 (VString v1); mkField k2 (VString v2)])
  /\ format_line l w lvl (msg +:+ " " +:+ k1 +:+ "=" +:+ v1) []
     = format_line l w lvl msg [mkField k1 (VString v1)].
Proof.
  rewrite !format_line_spec. unfold spec_line. rewrite !fields_text_fold. split.
  - do 3 f_equal. rewrite !fold_right_app. f_equal.
    cbn [fold_right]. unfold Sprintf_field. cbn [Key Val Sprint_v].
    by rewrite !append_assoc.
  - cbn [fold_right]. unfold Sprintf_field. cbn [Key Val Sprint_v].
    by rewrite !append_assoc.
Qed.

(** ** Derivation and logging, cell by cell *)

Section Cells.

Variable growcap : nat -> nat -> nat.

(** What [append] leaves of another slice: everything, unless that slice lies
    on the same array, is longer than the argument, and the new elements fit
    the argument's capacity. *)
Lemma append_frame (s : slice) (xs : list Field) (w : world) (t : slice) :
  valid (w_heap w) s -> valid (w_heap w) t ->
  s_arr t <> s_arr s \/ (s_len t <= s_len s)%nat
    \/ (s_cap s < s_len s + length xs)%nat \/ xs = [] ->
  elems (w_heap (snd (append growcap s xs w))) t = elems (w_heap w) t.
Proof.
  intros Hs Ht Hcase. unfold append. cbv zeta.
  destruct (s_len s + length xs <=? s_cap s)%nat eqn:Hfit; cbn [snd w_heap set_heap].
  - apply Nat.leb_le in Hfit.
    destruct (decide (s_arr s = s_arr t)) as [Heq|Hne].
    + unfold elems. rewrite <- Heq.
      destruct (decide (s_arr s < length (w_heap w))%nat) as [Hin|Hout];
        [|by rewrite list_insert_ge by lia].
      rewrite array_at_insert_eq by done. unfold write_at.
      destruct Hs as [Hs1 Hs2].
      destruct Hcase as [Hc|[Hc|[Hc| ->]]]; [congruence| |lia|].
      * rewrite take_app_le by (rewrite length_take; lia).
        rewrite take_take. f_equal. lia.
      * cbn [length app]. by rewrite Nat.add_0_r, take_drop.
    + unfold elems. by rewrite array_at_insert_ne.
  - unfold elems.
    destruct (decide (s_arr t < length (w_heap w))%nat) as [Hin|Hout].
    + by rewrite array_at_app_old.
    + destruct (valid_beyond _ _ Ht) as [H0 H1]; [lia|]. by rewrite H0.
Qed.

(** [append] returns, and touches the heap only. *)
Lemma append_heap_only (s : slice) (xs : list Field) (w : world) :
  exists s' h', append growcap s xs w = (Returned s', set_heap h' w).
Proof.
  unfold append. cbv zeta.
  destruct (s_len s + length xs <=? s_cap s)%nat; eexists _, _; reflexivity.
Qed.

Lemma WithFields_heap (l : zapLogger) (fs : list Field) (w : world) :
  after (zapLogger_WithFields growcap l fs) w = snd (append growcap (fields l) fs w).
Proof.
  unfold after, zapLogger_WithFields, mbind, M_bind.
  by destruct (append_heap_only (fields l) fs w) as (s' & h' & ->).
Qed.

Lemma log_heap (l : zapLogger) (lvl : Level) (msg : string) (fs : list Field) (w : world) :
  w_heap (after (zapLogger_log growcap l lvl msg fs) w)
  = w_heap (snd (append growcap (fields l) fs w)).
Proof.
  unfold after, zapLogger_log, mbind, M_bind.
  destruct (append_heap_only (fields l) fs w) as (s' & h' & ->).
  unfold get_world, write_line. cbn [snd].
  by destruct (refuses (set_heap h' w) (output l)).
Qed.

(** X1: a derivation ([WithFields], [WithField]) or a logging call on [l]
    leaves what a field slice [t] shows as it was whenever [t] lies on another
    backing array than [l]'s fields, or is no longer than them, or [l]'s
    fields fill their array (length equals capacity, so [append] copies). *)
Theorem derivation_overwrites_only_spare_cells (l : zapLogger) (fs : list Field)
    (key : string) (value : Value) (lvl : Level) (msg : string) (t : slice) (w : world) :
  valid (w_heap w) (fields l) -> valid (w_heap w) t ->
  s_arr t <> s_arr (fields l) \/ (s_len t <= s_len (fields l))%nat
    \/ s_len (fields l) = s_cap (fields l) ->
  elems (w_heap (after (zapLogger_WithFields growcap l fs) w)) t = elems (w_heap w) t
  /\ elems (w_heap (after (zapLogger_WithField growcap l key value) w)) t
     = elems (w_heap w) t
  /\ elems (w_heap (after (zapLogger_log growcap l lvl msg fs) w)) t = elems (w_heap w) t.
Proof.
  intros Hl Ht Hcase.
  assert (Hany : forall xs : list Field,
            s_arr t <> s_arr (fields l) \/ (s_len t <= s_len (fields l))%nat
            \/ (s_cap (fields l) < s_len (fields l) + length xs)%nat \/ xs = []).
  { intros xs. destruct Hcase as [H|[H|H]]; [by left | by right; left |].
    right; right. destruct xs; [by right | left; simpl; lia]. }
  split; [|split].
  - rewrite WithFields_heap. by apply append_frame.
  - change (zapLogger_WithField growcap l key value)
      with (zapLogger_WithFields growcap l [mkField key value]).
    rewrite WithFields_heap. by apply append_frame.
  - rewrite log_heap. by apply append_frame.
Qed.

(** X2: the fields passed to one logging call are not kept: of two enabled
    calls in a row on the same logger, each writes the logger's own fields
    followed by its own call fields, and the logger shows afterwards the
    fields it showed before. *)
Theorem call_fields_do_not_stick (m1 m2 : method) (l : zapLogger) (msg1 msg2 : string)
    (fs1 fs2 : list Field) (w : world) :
  valid (w_heap w) (fields l) ->
  level l <= method_level m1 -> level l <= method_level m2 ->
  let line := fun (m : method) msg fs =>
    format_line l w (method_level m) msg (fields_of l w ++ fs) in
  let evs := write_events (refuses w (output l)) (output l) in
  result (call_method growcap m1 l msg1 fs1 ;;; call_method growcap m2 l msg2 fs2) w
  = Returned tt
  /\ trace (after (call_method growcap m1 l msg1 fs1 ;;;
                   call_method growcap m2 l msg2 fs2) w)
     = trace w ++ evs (line m1 msg1 fs1) ++ evs (line m2 msg2 fs2)
  /\ fields_of l (after (call_method growcap m1 l msg1 fs1 ;;;
                         call_method growcap m2 l msg2 fs2) w)
     = fields_of l w.
Proof.
  intros Hv H1 H2 line evs.
  rewrite !(call_method_enabled growcap) by done.
  destruct (log_spec growcap l (method_level m1) msg1 fs1 w Hv) as (h1 & Hrun1 & Hold1 & Hpres1).
  set (w1 := mkWorld h1 _ _ _ _ _) in Hrun1.
  destruct (log_spec growcap l (method_level m2) msg2 fs2 w1) as (h2 & Hrun2 & Hold2 & _).
  { apply Hpres1, Hv. }
  unfold result, after, mbind, M_bind. rewrite Hrun1, Hrun2. cbn [fst snd trace].
  split; [done|]. split.
  - assert (Hf : fields_of l w1 = fields_of l w) by exact Hold1.
    rewrite Hf. unfold evs, line, w1. cbn [trace refuses].
    by rewrite <- app_assoc.
  - unfold fields_of at 1. cbn [w_heap]. rewrite Hold2.
    unfold fields_of, w1. cbn [w_heap]. exact Hold1.
Qed.

(** X3: derivations compose: [l.WithFields(fs1).WithFields(fs2)] shows [l]'s
    fields, then [fs1], then [fs2], as [l.WithFields(fs1 ++ fs2)] does; the
    intermediate logger still shows [l]'s fields and [fs1], [l] shows what it
    showed, the settings are [l]'s and nothing is written. *)
Theorem WithFields_composes (l : zapLogger) (fs1 fs2 : list Field) (w : world) :
  valid (w_heap w) (fields l) ->
  (forall n c : nat, (n <= growcap n c)%nat) ->
  exists d1 w1 d2 w2 d w',
    zapLogger_WithFields growcap l fs1 w = (Returned d1, w1)
    /\ zapLogger_WithFields growcap d1 fs2 w1 = (Returned d2, w2)
    /\ zapLogger_WithFields growcap l (fs1 ++ fs2) w = (Returned d, w')
    /\ fields_of d2 w2 = fields_of l w ++ fs1 ++ fs2
    /\ fields_of d w' = fields_of d2 w2
    /\ fields_of d1 w2 = fields_of l w ++ fs1
    /\ fields_of l w2 = fields_of l w
    /\ (level d2, output d2, caller d2, callerSkip d2)
       = (level l, output l, caller l, callerSkip l)
    /\ trace w2 = trace w.
Proof.
  intros Hv Hfit.
  destruct (WithFields_spec growcap l fs1 w Hv)
    as (d1 & h1 & Hrun1 & Hnew1 & Hold1 & Hset1 & Hval1 & Hpres1).
  destruct (WithFields_spec growcap d1 fs2 (set_heap h1 w) (Hval1 Hfit))
    as (d2 & h2 & Hrun2 & Hnew2 & Hold2 & Hset2 & _ & Hpres2).
  destruct (WithFields_spec growcap l (fs1 ++ fs2) w Hv)
    as (d & h & Hrun & Hnew & _).
  exists d1, (set_heap h1 w), d2, (set_heap h2 (set_heap h1 w)), d, (set_heap h w).
  unfold fields_of in *. cbn [w_heap set_heap] in *.
  split; [done|]. split; [done|]. split; [done|].
  assert (Hd2 : elems h2 (fields d2) = elems (w_heap w) (fields l) ++ fs1 ++ fs2).
  { by rewrite Hnew2, Hnew1, <- app_assoc. }
  split; [done|]. split; [by rewrite Hd2, Hnew|]. split; [by rewrite Hold2|].
  assert (Hl2 : elems h2 (fields l) = elems (w_heap w) (fields l)).
  { rewrite <- Hold1.
    pose proof (append_frame (fields d1) fs2 (set_heap h1 w) (fields l)) as Hfr.
    rewrite <- WithFields_heap in Hfr. unfold after in Hfr. rewrite Hrun2 in Hfr.
    apply Hfr; [by apply Hval1 | by apply Hpres1 |].
    right; left.
    rewrite <- (length_elems h1 (fields d1)) by (by apply Hval1).
    rewrite <- (length_elems (w_heap w) (fields l)) by done.
    cbn [w_heap set_heap] in *. rewrite Hnew1, length_app. lia. }
  split; [done|].
  injection Hset1 as E1 E2 E3 E4. injection Hset2 as F1 F2 F3 F4.
  split; [congruence | done].
Qed.

(** X4: [WithFields] with no fields returns a logger equal to the receiver,
    on the same backing array, and changes nothing. *)
Theorem WithFields_nothing (l : zapLogger) (w : world) :
  valid (w_heap w) (fields l) ->
  zapLogger_WithFields growcap l [] w = (Returned l, w).
Proof.
  intros [Hlen Hcap].
  unfold zapLogger_WithFields, mbind, M_bind, append. cbv zeta. cbn [length].
  rewrite Nat.add_0_r.
  assert ((s_len (fields l) <=? s_cap (fields l))%nat = true) as ->
    by (by apply Nat.leb_le).
  unfold mret, M_ret. f_equal.
  - f_equal. destruct l as [lv out [a n c] cl sk]; reflexivity.
  - unfold write_at. cbn [length app]. rewrite Nat.add_0_r, take_drop.
    assert (<[s_arr (fields l) := array_at (w_heap w) (s_arr (fields l))]> (w_heap w)
            = w_heap w) as ->.
    { unfold array_at.
      destruct (w_heap w !! s_arr (fields l)) as [a|] eqn:E.
      - by apply list_insert_id.
      - apply list_insert_ge. by apply lookup_ge_None_1. }
    by destruct w.
Qed.

(** X6: the package-level [WithFields] and [WithField] return a derived
    logger and leave the registry alone: the global logger is the one it was,
    shows the fields it showed, nothing is written, and a later enabled call
    on it writes its own fields and the call's, none of the derived ones. *)
Theorem package_WithFields_leaves_global (fs call : list Field) (key : string)
    (value : Value) (m : method) (msg : string) (w : world) :
  valid (w_heap w) (fields (globalLogger w)) ->
  let g := globalLogger w in
  let shows := fun (derive : M zapLogger) =>
    globalLogger (after derive w) = g
    /\ fields_of g (after derive w) = fields_of g w
    /\ trace (after derive w) = trace w
    /\ (level g <= method_level m ->
        trace (after (derive ;;; call_method growcap m g msg call) w)
        = trace w ++ write_events (refuses w (output g)) (output g)
                       (format_line g w (method_level m) msg (fields_of g w ++ call))) in
  shows (WithFields growcap fs) /\ shows (WithField growcap key value).
Proof.
  intros Hv g shows.
  assert (Hall : forall xs, shows (zapLogger_WithFields growcap g xs)).
  { intros xs. unfold shows.
    destruct (WithFields_spec growcap g xs w Hv)
      as (d & h' & Hrun & _ & Hold & _ & _ & Hpres).
    unfold after, mbind, M_bind. rewrite Hrun. cbn [snd].
    split; [done|]. split; [done|]. split; [done|].
    intros Hen. rewrite (call_method_enabled growcap) by done.
    destruct (log_spec growcap g (method_level m) msg call (set_heap h' w))
      as (h2 & Hrun2 & _); [by apply Hpres|].
    rewrite Hrun2. cbn [snd trace set_heap refuses].
    rewrite format_line_set_heap.
    assert (fields_of g (set_heap h' w) = fields_of g w) as -> by exact Hold.
    reflexivity. }
  split; [apply (Hall fs) | apply (Hall [mkField key value])].
Qed.

(** X7: while the global logger is the one the package starts with, the
    package-level Debug does nothing, Info, Warn and Error write one line
    with the call's fields to standard output, and Fatal writes its line and
    ends the process with status 1. *)
Theorem initial_global_logger (msg : string) (fs : list Field) (w : world) :
  globalLogger w = globalLogger_init ->
  let line := fun lvl => format_line globalLogger_init w lvl msg fs in
  let evs := fun lvl => write_events (refuses w Stdout) Stdout (line lvl) in
  Debug growcap msg fs w = (Returned tt, w)
  /\ trace (after (Info growcap msg fs) w) = trace w ++ evs InfoLevel
  /\ trace (after (Warn growcap msg fs) w) = trace w ++ evs WarnLevel
  /\ trace (after (Error growcap msg fs) w) = trace w ++ evs ErrorLevel
  /\ result (Fatal growcap msg fs) w = Exited 1
  /\ trace (after (Fatal growcap msg fs) w) = trace w ++ evs FatalLevel ++ [EvExit 1].
Proof.
  intros Hg line evs.
  assert (Hlog : forall lvl,
            exists h', zapLogger_log growcap globalLogger_init lvl msg fs w
            = (Returned tt, mkWorld h' (trace w ++ evs lvl) (globalLogger w)
                              (refuses w) (now w) (stack w))).
  { intros lvl.
    destruct (log_spec growcap globalLogger_init lvl msg fs w (valid_make0 _))
      as (h' & Hrun & _).
    exists h'. rewrite Hrun. reflexivity. }
  unfold Debug, Info, Warn, Error, Fatal, after, result. rewrite Hg.
  split; [reflexivity|].
  destruct (Hlog InfoLevel) as (hi & Hi). destruct (Hlog WarnLevel) as (hw & Hw).
  destruct (Hlog ErrorLevel) as (he & He). destruct (Hlog FatalLevel) as (hf & Hf).
  unfold zapLogger_Info, zapLogger_Warn, zapLogger_Error, zapLogger_Fatal, mbind, M_bind.
  cbn [level globalLogger_init New Z.leb Z.compare InfoLevel WarnLevel ErrorLevel
       Pos.compare Pos.compare_cont].
  rewrite Hi, Hw, He, Hf. cbn [fst snd trace os_Exit emit].
  repeat split; try done. by rewrite <- app_assoc.
Qed.

(** Under every growth policy: when a logger has a free cell in its array, an
    enabled level method called on it with a field returns to its caller and
    puts that field in the place of the one a logger derived before shows. *)
Lemma enabled_call_overwrites_spare_cell (m : method) (l : zapLogger) (k : string)
    (v : Value) (f : Field) (msg : string) (w : world) :
  valid (w_heap w) (fields l) ->
  (s_len (fields l) < s_cap (fields l))%nat ->
  level l <= method_level m ->
  exists d1 w1,
    zapLogger_WithField growcap l k v w = (Returned d1, w1)
    /\ fields_of d1 w1 = fields_of l w ++ [mkField k v]
    /\ result (call_method growcap m l msg [f]) w1 = Returned tt
    /\ fields_of d1 (after (call_method growcap m l msg [f]) w1) = fields_of l w ++ [f].
Proof.
  intros Hv Hspare Hen. destruct f as [kf vf].
  destruct (spare_capacity_aliases growcap l k kf v vf w Hv Hspare)
    as (d1 & w1 & d2 & w2 & Hrun1 & Hnew1 & Hrun2 & Hnew2).
  exists d1, w1. split; [exact Hrun1|]. split; [exact Hnew1|].
  assert (Hv1 : valid (w_heap w1) (fields l)).
  { destruct (WithField_spec growcap l k v w Hv) as (d & h & Hrun & _ & _ & _ & _ & Hpres).
    rewrite Hrun in Hrun1. injection Hrun1 as _ <-. by apply Hpres. }
  rewrite (call_method_enabled growcap) by exact Hen.
  destruct (log_spec growcap l (method_level m) msg [mkField kf vf] w1 Hv1)
    as (h' & Hrun & _).
  split; [unfold result; by rewrite Hrun|].
  unfold fields_of at 1. rewrite log_heap, <- WithFields_heap.
  change (zapLogger_WithFields growcap l [mkField kf vf])
    with (zapLogger_WithField growcap l kf vf).
  unfold after. rewrite Hrun2. exact Hnew2.
Qed.

End Cells.

(** C5: Fatal is not the only level method with an effect beyond its output.
    In the chain [l3 := New(Info).WithField(a,1).WithField(b,2).WithField(c,3)],
    [l4 := l3.WithField(d,4)], the enabled call [l3.Info(m, x=9)] returns to
    its caller after writing its one line, and [l4], which showed a, b, c, d
    before the call, shows a, b, c, x after it: [log] appended the call's
    field into the array [l3] and [l4] share. *)
Theorem C5_level_method_overwrites_fields :
  exists l4 w1,
    derive_l3_l4 world0 = (Returned (logger3, l4), w1)
    /\ level logger3 <= InfoLevel
    /\ fields_of l4 w1
       = [mkField "a" (VInt 1); mkField "b" (VInt 2); mkField "c" (VInt 3);
          mkField "d" (VInt 4)]
    /\ zapLogger_Info nextslicecap logger3 "m" [mkField "x" (VInt 9)] w1
       = (Returned tt,
          after (zapLogger_Info nextslicecap logger3 "m" [mkField "x" (VInt 9)]) w1)
    /\ trace (after (zapLogger_Info nextslicecap logger3 "m" [mkField "x" (VInt 9)]) w1)
       = trace w1 ++ [EvWrite Stdout ("T [INFO] m a=1 b=2 c=3 x=9" +:+ nl)]
    /\ fields_of l4 (after (zapLogger_Info nextslicecap logger3 "m"
                              [mkField "x" (VInt 9)]) w1)
       = [mkField "a" (VInt 1); mkField "b" (VInt 2); mkField "c" (VInt 3);
          mkField "x" (VInt 9)].
Proof. eexists _, _. repeat split. vm_compute. discriminate. Qed.

Lemma derivation_overwrites_only_spare_cells_witness :
  valid (w_heap world3) (fields logger3)
  /\ (s_len (fields logger3) <= s_len (fields logger3))%nat
  /\ elems (w_heap (after (zapLogger_WithField nextslicecap logger3 "d" (VInt 4)) world3))
       (fields logger3)
     = [mkField "a" (VInt 1); mkField "b" (VInt 2); mkField "c" (VInt 3)].
Proof.
  split; [exact valid_logger3|]. split; [reflexivity|].
  destruct (derivation_overwrites_only_spare_cells nextslicecap logger3 [] "d" (VInt 4)
              InfoLevel "m" (fields logger3) world3 valid_logger3 valid_logger3
              (or_intror (or_introl (le_n _)))) as (_ & Hone & _).
  rewrite Hone. reflexivity.
Defined.

Lemma call_fields_do_not_stick_witness :
  valid (w_heap world3) (fields logger3)
  /\ level logger3 <= method_level MInfo /\ level logger3 <= method_level MError
  /\ trace (after (call_method nextslicecap MInfo logger3 "m" [mkField "x" (VInt 9)] ;;;
                   call_method nextslicecap MError logger3 "n" []) world3)
     = [EvWrite Stdout ("T [INFO] m a=1 b=2 c=3 x=9" +:+ nl);
        EvWrite Stdout ("T [ERROR] n a=1 b=2 c=3" +:+ nl)].
Proof.
  split; [exact valid_logger3|]. split; [done|]. split; [done|].
  destruct (call_fields_do_not_stick nextslicecap MInfo MError logger3 "m" "n"
              [mkField "x" (VInt 9)] [] world3 valid_logger3) as (_ & Htrace & _);
    [done | done |].
  rewrite Htrace. reflexivity.
Defined.

Lemma WithFields_composes_witness :
  valid (w_heap world0) (fields (New InfoLevel))
  /\ (forall n c : nat, (n <= nextslicecap n c)%nat)
  /\ exists d1 w1 d2 w2,
       zapLogger_WithFields nextslicecap (New InfoLevel) [mkField "a" (VInt 1)] world0
       = (Returned d1, w1)
       /\ zapLogger_WithFields nextslicecap d1 [mkField "b" (VInt 2)] w1 = (Returned d2, w2)
       /\ fields_of d2 w2 = [mkField "a" (VInt 1); mkField "b" (VInt 2)].
Proof.
  split; [apply valid_make0|]. split; [exact nextslicecap_fits|].
  destruct (WithFields_composes nextslicecap (New InfoLevel) [mkField "a" (VInt 1)]
              [mkField "b" (VInt 2)] world0 (valid_make0 _) nextslicecap_fits)
    as (d1 & w1 & d2 & w2 & d & w' & H1 & H2 & _ & H3 & _).
  exists d1, w1, d2, w2. by repeat split.
Defined.

Lemma WithFields_nothing_witness :
  valid (w_heap world3) (fields logger3)
  /\ zapLogger_WithFields nextslicecap logger3 [] world3 = (Returned logger3, world3).
Proof.
  split; [exact valid_logger3|].
  exact (WithFields_nothing nextslicecap logger3 world3 valid_logger3).
Defined.

Lemma package_WithFields_leaves_global_witness :
  valid (w_heap world0) (fields (globalLogger world0))
  /\ globalLogger (after (WithField nextslicecap "request" (VInt 7)) world0)
     = globalLogger_init
  /\ trace (after (WithField nextslicecap "request" (VInt 7) ;;;
                   call_method nextslicecap MInfo (globalLogger world0) "m" []) world0)
     = [EvWrite Stdout ("T [INFO] m" +:+ nl)].
Proof.
  split; [apply valid_make0|].
  destruct (package_WithFields_leaves_global nextslicecap [] [] "request" (VInt 7)
              MInfo "m" world0 (valid_make0 _)) as (_ & Hg & _ & _ & Hlog).
  split; [exact Hg|]. rewrite Hlog; [reflexivity | done].
Defined.

Lemma initial_global_logger_witness :
  globalLogger world0 = globalLogger_init
  /\ Debug nextslicecap "m" [] world0 = (Returned tt, world0)
  /\ trace (after (Info nextslicecap "m" [mkField "a" (VInt 1)]) world0)
     = [EvWrite Stdout ("T [INFO] m a=1" +:+ nl)].
Proof.
  split; [reflexivity|]. split.
  - apply (initial_global_logger nextslicecap "m" [] world0 eq_refl).
  - destruct (initial_global_logger nextslicecap "m" [mkField "a" (VInt 1)] world0 eq_refl)
      as (_ & Hinfo & _).
    rewrite Hinfo. reflexivity.
Defined.

End logger_facts.

Module cmd_facts.
Import cmd.

(** ** Configuration *)

Lemma getEnv_default (env : gmap string string) (key dflt : string) :
  getEnv env key dflt = default dflt (env !! key).
Proof. unfold getEnv. by destruct (env !! key). Qed.

Lemma getDurationEnv_default (P : string -> option Duration) (env : gmap string string)
    (key : string) (dflt : Duration) :
  getDurationEnv P env key dflt = default dflt (mbind P (env !! key)).
Proof.
  unfold getDurationEnv. destruct (env !! key) as [v|]; [|done].
  simpl. by destruct (P v).
Qed.

(** C8, amended: with the seven variables unset, LoadConfig returns port
    8080, read and write timeouts 15s, idle timeout 60s, shutdown timeout 30s,
    max header size 1 MiB, environment development and log level info. PORT,
    ENVIRONMENT and LOG_LEVEL are returned as they are when set; a timeout
    variable gives the returned value when it is set and parses as a
    duration, and the default when it is absent or does not parse. *)
Theorem C8_LoadConfig (ParseDuration : string -> option Duration)
    (env : gmap string string) :
  let c := LoadConfig ParseDuration env in
  ((forall k, In k config_variables -> env !! k = None) -> c = defaultConfig)
  /\ Port (Server c) = default "8080" (env !! "PORT")
  /\ Environment (App c) = default "development" (env !! "ENVIRONMENT")
  /\ LogLevel (App c) = default "info" (env !! "LOG_LEVEL")
  /\ ReadTimeout (Server c)
     = default (15 * Second) (mbind ParseDuration (env !! "READ_TIMEOUT"))
  /\ WriteTimeout (Server c)
     = default (15 * Second) (mbind ParseDuration (env !! "WRITE_TIMEOUT"))
  /\ IdleTimeout (Server c)
     = default (60 * Second) (mbind ParseDuration (env !! "IDLE_TIMEOUT"))
  /\ ShutdownTimeout (Server c)
     = default (30 * Second) (mbind ParseDuration (env !! "SHUTDOWN_TIMEOUT"))
  /\ MaxHeaderBytes (Server c) = 1048576.
Proof.
  intros c. split.
  - intros Hunset. unfold c, LoadConfig.
    rewrite !getEnv_default, !getDurationEnv_default.
    rewrite !Hunset by (unfold config_variables; simpl; tauto).
    reflexivity.
  - unfold c, LoadConfig. cbn [Server App Port Environment LogLevel ReadTimeout
      WriteTimeout IdleTimeout ShutdownTimeout MaxHeaderBytes].
    rewrite !getEnv_default, !getDurationEnv_default. by repeat split.
Qed.

Lemma C8_LoadConfig_witness :
  (forall k, In k config_variables -> (∅ : gmap string string) !! k = None)
  /\ LoadConfig time_ParseDuration ∅ = defaultConfig
  /\ ReadTimeout (Server (LoadConfig time_ParseDuration
                            {[ "READ_TIMEOUT" := "1m30s"; "PORT" := "9090" ]}))
     = 90 * Second
  /\ Port (Server (LoadConfig time_ParseDuration
                     {[ "READ_TIMEOUT" := "1m30s"; "PORT" := "9090" ]}))
     = "9090".
Proof.
  assert (Hunset : forall k, In k config_variables -> (∅ : gmap string string) !! k = None)
    by (intros k _; apply lookup_empty).
  split; [exact Hunset|]. split.
  - apply (C8_LoadConfig time_ParseDuration ∅), Hunset.
  - destruct (C8_LoadConfig time_ParseDuration
                {[ "READ_TIMEOUT" := "1m30s"; "PORT" := "9090" ]})
      as (_ & Hport & _ & _ & Hread & _).
    split; [rewrite Hread | rewrite Hport]; reflexivity.
Defined.

(** C8 as stated fails: with READ_TIMEOUT set to a text that is no duration,
    the variable is set and yet the read timeout returned is the default, and
    the whole configuration is the one of the empty environment. *)
Lemma C8_set_variable_ignored :
  ({[ "READ_TIMEOUT" := "abc" ]} : gmap string string) !! "READ_TIMEOUT" = Some "abc"
  /\ time_ParseDuration "abc" = None
  /\ ReadTimeout (Server (LoadConfig time_ParseDuration {[ "READ_TIMEOUT" := "abc" ]}))
     = 15 * Second
  /\ LoadConfig time_ParseDuration {[ "READ_TIMEOUT" := "abc" ]}
     = LoadConfig time_ParseDuration ∅.
Proof. repeat split. Qed.

(** ** The health check *)

(** C10: whatever the request (method, path, body), the health check answers
    status 200 with Content-Type application/json, and on a live connection
    the body is the object with status healthy and the formatted time. *)
Theorem C10_healthCheck_ignores_method (now : string) (err : option string)
    (r r' : Request) :
  rw_status (healthCheck now (fresh err) r) = Some 200
  /\ rw_header (healthCheck now (fresh err) r) !! "Content-Type" = Some "application/json"
  /\ rw_body (healthCheck now (fresh None) r)
     = "{" +:+ dq +:+ "status" +:+ dq +:+ ":" +:+ dq +:+ "healthy" +:+ dq +:+ ","
       +:+ dq +:+ "timestamp" +:+ dq +:+ ":" +:+ dq +:+ now +:+ dq +:+ "}"
  /\ healthCheck now (fresh err) r = healthCheck now (fresh err) r'.
Proof.
  repeat split.
  all: unfold healthCheck, Write, WriteHeader, Header_Set, fresh; cbn.
  all: destruct err; cbn; first [reflexivity | apply lookup_insert_eq].
Qed.

(** ** The webhook handler, whatever the decoder *)

(** X9: the webhook handler answers 405 with the text [Method not allowed] to
    every request whose method is not exactly POST, 400 with [Invalid payload]
    to a POST whose body the decoder rejects, and 200 with [Webhook processed]
    to a POST whose body it accepts; the texts reach a live connection. *)
Theorem webhook_responses (json_Decode : string -> option ConfluenceWebhook)
    (err : option string) (r : Request) :
  let out := fst (handleConfluenceWebhook json_Decode (fresh err) r) in
  (Method r <> "POST" ->
     rw_status out = Some 405
     /\ (err = None -> rw_body out = "Method not allowed" +:+ nl))
  /\ (Method r = "POST" -> json_Decode (Body r) = None ->
     rw_status out = Some 400
     /\ (err = None -> rw_body out = "Invalid payload" +:+ nl))
  /\ (Method r = "POST" -> json_Decode (Body r) <> None ->
     rw_status out = Some 200
     /\ (err = None -> rw_body out = "Webhook processed")).
Proof.
  intros out. unfold out, handleConfluenceWebhook, MethodPost.
  split; [|split].
  - intros Hm. apply String.eqb_neq in Hm. rewrite Hm. cbn [negb fst].
    split; [by destruct err | by intros ->].
  - intros Hm Hd. apply String.eqb_eq in Hm. rewrite Hm, Hd. cbn [negb fst].
    split; [by destruct err | by intros ->].
  - intros Hm Hd. apply String.eqb_eq in Hm. rewrite Hm. cbn [negb].
    destruct (json_Decode (Body r)) as [wh|]; [|done].
    split; [by destruct err | by intros ->].
Qed.

(** X10: the webhook handler logs nothing for a request it rejects; for one it
    accepts it logs the event and the page title, and a second line when the
    response cannot be written. A request that is not a POST is answered
    without its body being decoded: the decoder, the path and the body make
    no difference. *)
Theorem webhook_log_lines (json_Decode : string -> option ConfluenceWebhook)
    (err : option string) (r : Request) :
  let logged := snd (handleConfluenceWebhook json_Decode (fresh err) r) in
  (Method r <> "POST" \/ json_Decode (Body r) = None -> logged = [])
  /\ (forall wh, Method r = "POST" -> json_Decode (Body r) = Some wh ->
      let line := "Confluence event: " +:+ Event wh +:+ ", Page: " +:+ Page_Title wh +:+ nl in
      logged = match err with
               | None => [line]
               | Some e => [line; "Error writing response: " +:+ e +:+ nl]
               end)
  /\ (Method r <> "POST" ->
      forall (D : string -> option ConfluenceWebhook) (path body : string),
        handleConfluenceWebhook D (fresh err) (mkRequest (Method r) path body)
        = handleConfluenceWebhook json_Decode (fresh err) r).
Proof.
  intros logged. unfold logged, handleConfluenceWebhook, MethodPost.
  split; [|split].
  - intros [Hm|Hd].
    + apply String.eqb_neq in Hm. by rewrite Hm.
    + destruct (String.eqb (Method r) "POST"); [|done]. by rewrite Hd.
  - intros wh Hm Hd. cbv zeta. apply String.eqb_eq in Hm. rewrite Hm, Hd. cbn [negb].
    by destruct err.
  - intros Hm D path body. apply String.eqb_neq in Hm. cbn [Method]. by rewrite Hm.
Qed.

(** ** More about the configuration *)

(** X17: an unset variable gives the default in [getEnv], [getDurationEnv]
    and [getIntEnv]; a variable set to the empty string gives the empty
    string in [getEnv] and the default in the two others. *)
Theorem unset_and_empty_variables (env : gmap string string) (key dflt : string)
    (d : Duration) (n : Z) :
  getEnv (delete key env) key dflt = dflt
  /\ getDurationEnv time_ParseDuration (delete key env) key d = d
  /\ getIntEnv strconv_Atoi (delete key env) key n = n
  /\ getEnv (<[key := ""]> env) key dflt = ""
  /\ getDurationEnv time_ParseDuration (<[key := ""]> env) key d = d
  /\ getIntEnv strconv_Atoi (<[key := ""]> env) key n = n.
Proof.
  unfold getEnv, getDurationEnv, getIntEnv.
  rewrite lookup_delete_eq, lookup_insert_eq. by repeat split.
Qed.

(** X18: [LoadConfig] reads the seven variables and nothing else: two
    environments that agree on them give the same configuration. *)
Theorem LoadConfig_reads_seven_variables (ParseDuration : string -> option Duration)
    (env env' : gmap string string) :
  (forall k, In k config_variables -> env !! k = env' !! k) ->
  LoadConfig ParseDuration env = LoadConfig ParseDuration env'.
Proof.
  intros H. unfold LoadConfig, getEnv, getDurationEnv.
  rewrite !H by (unfold config_variables; simpl; tauto). reflexivity.
Qed.

Lemma LoadConfig_reads_seven_variables_witness :
  LoadConfig time_ParseDuration {[ "HOME" := "/root"; "PORT" := "9090" ]}
  = LoadConfig time_ParseDuration {[ "PORT" := "9090"; "MAX_HEADER_BYTES" := "1" ]}.
Proof.
  apply LoadConfig_reads_seven_variables.
  intros k Hk. unfold config_variables in Hk. simpl in Hk.
  repeat (destruct Hk as [<-|Hk]; [reflexivity|]). destruct Hk.
Defined.

(** X19: the server [StartServer] builds listens on the port it is called
    with and serves the two registered patterns with a header limit of
    1 MiB; the variable PORT, set, changed or unset, changes neither the
    server nor the shutdown deadline. *)
Theorem StartServer_ignores_PORT (ParseDuration : string -> option Duration)
    (env : gmap string string) (port p : string) :
  let srv := StartServer_server ParseDuration env port in
  Addr srv = ":" +:+ port
  /\ Handler srv = [("/webhook/confluence", handler_handleConfluenceWebhook);
                    ("/health", handler_healthCheck)]
  /\ srv_MaxHeaderBytes srv = 1048576
  /\ StartServer_server ParseDuration (<["PORT" := p]> env) port = srv
  /\ StartServer_server ParseDuration (delete "PORT" env) port = srv
  /\ StartServer_shutdown_timeout ParseDuration (<["PORT" := p]> env) port
     = StartServer_shutdown_timeout ParseDuration env port.
Proof.
  intros srv. unfold srv, StartServer_server, StartServer_shutdown_timeout, LoadConfig.
  cbn [Server ReadTimeout WriteTimeout IdleTimeout MaxHeaderBytes ShutdownTimeout
       Addr Handler srv_MaxHeaderBytes].
  unfold getDurationEnv.
  rewrite !lookup_insert_ne by done. rewrite !lookup_delete_ne by done.
  by repeat split.
Qed.

(** ** Decimal numerals *)

Lemma append_nil_l (s : string) : "" +:+ s = s.
Proof. reflexivity. Qed.

Lemma length_append (a b : string) :
  String.length (a +:+ b) = (String.length a + String.length b)%nat.
Proof. induction a as [|c a IH]; [done|]. rewrite append_cons. cbn. by rewrite IH. Qed.

Lemma is_digit_cases (c : ascii) :
  is_digit c = true ->
  c = "0"%char \/ c = "1"%char \/ c = "2"%char \/ c = "3"%char \/ c = "4"%char
  \/ c = "5"%char \/ c = "6"%char \/ c = "7"%char \/ c = "8"%char \/ c = "9"%char.
Proof.
  destruct c as [[] [] [] [] [] [] [] []]; intros H; try discriminate H; tauto.
Qed.

Lemma pretty_N_char_digit (d : N) :
  (d < 10)%N ->
  is_digit (pretty_N_char d) = true /\ digit_val (pretty_N_char d) = Z.of_N d
  /\ (d <> 0%N -> pretty_N_char d <> "0"%char).
Proof.
  intros H.
  assert (d = 0 \/ d = 1 \/ d = 2 \/ d = 3 \/ d = 4 \/ d = 5 \/ d = 6 \/ d = 7
          \/ d = 8 \/ d = 9)%N as Hd by lia.
  repeat (destruct Hd as [->|Hd]; [by repeat split|]). subst d. by repeat split.
Qed.

(** Reading back the digits [pretty] writes. *)
Lemma digits_value_pretty_N_go (x : N) (s : string) :
  digits_value (pretty_N_go x s) 0 = digits_value s (Z.of_N x).
Proof.
  revert s. induction (N.lt_wf_0 x) as [x _ IH]; intros s.
  assert (x = 0 \/ 0 < x)%N as [->|Hpos] by lia; [by rewrite pretty_N_go_0|].
  rewrite pretty_N_go_step by done.
  rewrite IH by (by apply N.div_lt).
  destruct (pretty_N_char_digit (x `mod` 10)) as (Hd & Hv & _).
  { by apply N.mod_lt. }
  cbn [digits_value]. rewrite Hd, Hv. f_equal.
  rewrite (N.div_mod x 10) at 3 by done. lia.
Qed.

(** A positive number prints as a digit other than zero followed by digits. *)
Lemma pretty_N_go_shape (x : N) (s : string) :
  (0 < x)%N ->
  exists c ds, pretty_N_go x s = String c (ds +:+ s)
    /\ is_digit c = true /\ c <> "0"%char /\ all_digits ds = true.
Proof.
  revert s. induction (N.lt_wf_0 x) as [x _ IH]; intros s Hpos.
  rewrite pretty_N_go_step by done.
  destruct (pretty_N_char_digit (x `mod` 10)) as (Hd & _ & Hnz).
  { by apply N.mod_lt. }
  destruct (N.eq_0_gt_0_cases (x `div` 10)) as [Hz|Hq].
  - rewrite Hz, pretty_N_go_0. exists (pretty_N_char (x `mod` 10)), "".
    split; [done|]. split; [done|]. split; [|done].
    apply Hnz. intros Hm. pose proof (N.div_mod x 10 ltac:(done)) as E.
    rewrite Hz, Hm in E. lia.
  - destruct (IH (x `div` 10)%N (N.div_lt x 10 Hpos eq_refl)
                (String (pretty_N_char (x `mod` 10)) s) Hq)
      as (c & ds & -> & Hc & Hc0 & Hds).
    exists c, (ds +:+ String (pretty_N_char (x `mod` 10)) "").
    split; [by rewrite append_assoc|]. split; [done|]. split; [done|].
    clear -Hds Hd. induction ds as [|y ds IHds]; cbn [all_digits] in *.
    + rewrite append_nil_l. cbn [all_digits]. by rewrite Hd.
    + rewrite append_cons. cbn [all_digits].
      apply andb_true_iff in Hds as [-> Hds]. by apply IHds.
Qed.

Lemma pretty_pos_shape (p : positive) :
  exists c ds, pretty (Z.pos p) = String c ds
    /\ is_digit c = true /\ c <> "0"%char /\ all_digits ds = true
    /\ digits_value (String c ds) 0 = Some (Z.pos p).
Proof.
  destruct (pretty_N_go_shape (N.pos p) "" eq_refl) as (c & ds & Hs & Hc & Hc0 & Hds).
  rewrite append_nil_r in Hs.
  assert (Hp : pretty (Z.pos p) = pretty_N_go (N.pos p) "") by reflexivity.
  exists c, ds. rewrite Hp, Hs. repeat split; try done.
  rewrite <- Hs, digits_value_pretty_N_go. reflexivity.
Qed.

(** [strconv.ParseInt] on the decimal numeral of [n]: [n] inside the range of
    [int64], an error outside. *)
Lemma strconv_ParseInt_pretty (n : Z) :
  strconv_ParseInt (pretty n)
  = if (- two63 <=? n) && (n <? two63) then Some n else None.
Proof.
  destruct n as [|p|p].
  - reflexivity.
  - destruct (pretty_pos_shape p) as (c & ds & -> & Hc & _ & _ & Hv).
    unfold strconv_ParseInt.
    destruct (is_digit_cases c Hc) as [->|[->|[->|[->|[->|[->|[->|[->|[->| ->]]]]]]]]];
      cbn [String.eqb Ascii.eqb Bool.eqb]; by rewrite Hv.
  - destruct (pretty_pos_shape p) as (c & ds & Hs & Hc & _ & _ & Hv).
    assert (Hp : pretty (Z.neg p) = String "-" (pretty (Z.pos p))) by reflexivity.
    rewrite Hp, Hs. unfold strconv_ParseInt. cbn [String.eqb]. by rewrite Hv.
Qed.

(** X16: [getIntEnv] reads back every integer of the 64-bit range from its
    decimal numeral, and returns the default for the numeral of any other
    integer. *)
Theorem getIntEnv_round_trip (env : gmap string string) (key : string) (n dflt : Z) :
  getIntEnv strconv_Atoi (<[key := pretty n]> env) key dflt
  = if (- 2 ^ 63 <=? n) && (n <? 2 ^ 63) then n else dflt.
Proof.
  unfold getIntEnv, strconv_Atoi. rewrite lookup_insert_eq, strconv_ParseInt_pretty.
  change two63 with (2 ^ 63). by destruct ((- 2 ^ 63 <=? n) && (n <? 2 ^ 63)).
Qed.

(** ** Durations without a unit *)

Lemma leadingInt_all_digits (s : string) (x : Z) :
  all_digits s = true -> leadingInt s x = None \/ exists v, leadingInt s x = Some (v, "").
Proof.
  revert x. induction s as [|c s IH]; intros x H.
  - right. by exists x.
  - cbn [all_digits] in H. apply andb_true_iff in H as [Hc Hs].
    cbn [leadingInt]. rewrite Hc.
    destruct (two63 / 10 <? x); [by left|].
    destruct (two63 <? x * 10 + digit_val c); [by left|]. by apply IH.
Qed.

Lemma ParseDuration_loop_bare (fuel : nat) (c : ascii) (s : string) (d : Z) :
  all_digits (String c s) = true -> ParseDuration_loop fuel (String c s) d = None.
Proof.
  intros H. destruct fuel as [|fuel]; [done|].
  pose proof H as H'. cbn [all_digits] in H'. apply andb_true_iff in H' as [Hc Hs].
  cbn [ParseDuration_loop]. rewrite Hc, orb_true_r. cbn [negb].
  destruct (leadingInt_all_digits (String c s) 0 H) as [->|[v ->]]; [done|].
  reflexivity.
Qed.

(** X20: a timeout variable that holds digits only, and not the single digit
    zero, is no duration for [time.ParseDuration] (the unit is missing), so
    [getDurationEnv] returns the default. *)
Theorem bare_number_is_no_duration (env : gmap string string) (key value : string)
    (dflt : Duration) :
  all_digits value = true -> value <> "0" ->
  time_ParseDuration value = None
  /\ getDurationEnv time_ParseDuration (<[key := value]> env) key dflt = dflt.
Proof.
  intros Hd H0.
  assert (Hp : time_ParseDuration value = None).
  { destruct value as [|c s]; [done|].
    pose proof Hd as Hd'. cbn [all_digits] in Hd'. apply andb_true_iff in Hd' as [Hc Hs].
    unfold time_ParseDuration.
    destruct (is_digit_cases c Hc) as [->|[->|[->|[->|[->|[->|[->|[->|[->| ->]]]]]]]]];
      cbv beta iota zeta;
      (destruct (String.eqb _ "0") eqn:E0; [apply String.eqb_eq in E0; congruence|]);
      cbn [String.eqb]; by rewrite ParseDuration_loop_bare. }
  split; [done|]. unfold getDurationEnv. rewrite lookup_insert_eq. by rewrite Hp.
Qed.

Lemma bare_number_is_no_duration_witness :
  all_digits "30" = true /\ "30" <> "0"
  /\ getDurationEnv time_ParseDuration {[ "READ_TIMEOUT" := "30" ]} "READ_TIMEOUT"
       (15 * Second)
     = 15 * Second.
Proof.
  split; [reflexivity|]. split; [discriminate|].
  apply (bare_number_is_no_duration ∅ "READ_TIMEOUT" "30" (15 * Second) eq_refl).
  discriminate.
Defined.

(** ** Scanning and decoding *)

Lemma is_plain_spec (c : ascii) :
  is_plain c = true ->
  Ascii.eqb c "034" = false /\ Ascii.eqb c "\" = false
  /\ (byte_of c <? 32) = false /\ (byte_of c <? 128) = true.
Proof.
  unfold is_plain, in_range. intros H.
  apply andb_true_iff in H as [H H3]. apply andb_true_iff in H as [H H2].
  apply andb_true_iff in H as [H0 H1].
  apply Z.leb_le in H0, H1. apply negb_true_iff in H2, H3.
  repeat split; try done; [apply Z.ltb_ge | apply Z.ltb_lt]; lia.
Qed.

Lemma scan_string_plain (s rest : string) :
  plain s = true -> scan_string (s +:+ String "034" rest) = Some (s, rest).
Proof.
  induction s as [|c s IH]; intros H; [done|].
  cbn [plain] in H. apply andb_true_iff in H as [Hc Hs].
  destruct (is_plain_spec c Hc) as (H1 & H2 & H3 & _).
  rewrite append_cons. cbn [scan_string]. rewrite H1, H2, H3, IH by done. reflexivity.
Qed.

Lemma unquote_loop_plain (s : string) (fuel : nat) :
  plain s = true -> (String.length s <= fuel)%nat -> unquote_loop fuel s = s.
Proof.
  revert fuel. induction s as [|c s IH]; intros fuel H Hf.
  - by destruct fuel.
  - cbn [plain] in H. apply andb_true_iff in H as [Hc Hs].
    destruct (is_plain_spec c Hc) as (_ & H2 & _ & H4).
    destruct fuel as [|fuel]; [cbn in Hf; lia|].
    cbn [unquote_loop]. rewrite H2, H4. f_equal. apply IH; [done|]. cbn in Hf. lia.
Qed.

Lemma unquote_plain (s : string) : plain s = true -> unquote s = s.
Proof. intros H. by apply unquote_loop_plain. Qed.

Lemma span_digits_all (ds : string) (c : ascii) (rest : string) :
  all_digits ds = true -> is_digit c = false ->
  span_digits (ds +:+ String c rest) = (ds, String c rest).
Proof.
  intros Hds Hc. induction ds as [|d ds IH].
  - rewrite append_nil_l. cbn [span_digits]. by rewrite Hc.
  - cbn [all_digits] in Hds. apply andb_true_iff in Hds as [Hd Hds].
    rewrite append_cons. cbn [span_digits]. rewrite Hd, IH by done. reflexivity.
Qed.

(** The numeral of an integer, followed by a comma, scans as itself. *)
Lemma scan_number_pretty (n : Z) (rest : string) :
  scan_number (pretty n +:+ String "," rest) = Some (pretty n, String "," rest).
Proof.
  assert (Hpos : forall p, scan_number (pretty (Z.pos p) +:+ String "," rest)
                           = Some (pretty (Z.pos p), String "," rest)
                 /\ scan_number (String "-" (pretty (Z.pos p) +:+ String "," rest))
                    = Some (String "-" (pretty (Z.pos p)), String "," rest)).
  { intros p. destruct (pretty_pos_shape p) as (c & ds & -> & Hc & Hc0 & Hds & _).
    rewrite append_cons. unfold scan_number.
    destruct (is_digit_cases c Hc) as [->|[->|[->|[->|[->|[->|[->|[->|[->| ->]]]]]]]]];
      try done;
      cbn [is_digit nat_of_ascii Z.of_nat];
      rewrite (span_digits_all ds "," rest Hds eq_refl);
      rewrite Hc; split; cbn; rewrite ?append_nil_l, ?append_nil_r; reflexivity. }
  destruct n as [|p|p].
  - reflexivity.
  - apply Hpos.
  - apply (Hpos p).
Qed.

(** One step of the scanner on each kind of value. *)
Lemma parse_value_string (f : nat) (d : Z) (s rest : string) :
  plain s = true ->
  parse_value (S f) d (String "034" (s +:+ String "034" rest)) = Some (JString s, rest).
Proof.
  intros H.
  change (parse_value (S f) d (String "034" (s +:+ String "034" rest)))
    with (match scan_string (s +:+ String "034" rest) with
          | Some (raw, r') => Some (JString raw, r')
          | None => None
          end).
  by rewrite scan_string_plain.
Qed.

Lemma parse_value_object (f : nat) (d : Z) (r : string) :
  d + 1 <= maxNestingDepth ->
  parse_value (S f) d (String "{" (String "034" r))
  = match parse_members f (d + 1) (String "034" r) with
    | Some (ms, r') => Some (JObject ms, r')
    | None => None
    end.
Proof.
  intros Hd.
  change (parse_value (S f) d (String "{" (String "034" r)))
    with (if maxNestingDepth <? d + 1 then None
          else match parse_members f (d + 1) (String "034" r) with
               | Some (ms, r') => Some (JObject ms, r')
               | None => None
               end).
  assert ((maxNestingDepth <? d + 1) = false) as -> by (apply Z.ltb_ge; lia).
  reflexivity.
Qed.

Lemma parse_value_number (f : nat) (d : Z) (n : Z) (rest : string) :
  parse_value (S f) d (pretty n +:+ String "," rest)
  = Some (JNumber (pretty n), String "," rest).
Proof.
  assert (Hstep : forall c X, is_digit c = true \/ c = "-"%char ->
            parse_value (S f) d (String c X)
            = match scan_number (String c X) with
              | Some (lit, r') => Some (JNumber lit, r')
              | None => None
              end).
  { intros c X [Hc| ->]; [|reflexivity].
    destruct (is_digit_cases c Hc) as [->|[->|[->|[->|[->|[->|[->|[->|[->| ->]]]]]]]]];
      reflexivity. }
  assert (Hhead : exists c X, pretty n +:+ String "," rest = String c X
                    /\ (is_digit c = true \/ c = "-"%char)).
  { destruct n as [|p|p].
    - by exists "0"%char, (String "," rest); split; [|left].
    - destruct (pretty_pos_shape p) as (c & ds & -> & Hc & _).
      exists c, (ds +:+ String "," rest). by split; [|left].
    - exists "-"%char, (pretty (Z.pos p) +:+ String "," rest). by split; [|right]. }
  destruct Hhead as (c & X & HX & Hc).
  rewrite HX, Hstep by done. rewrite <- HX. by rewrite scan_number_pretty.
Qed.

(** One member with a plain key: the key, the colon, the value, and then a
    comma and more members or the closing brace. *)
Lemma parse_members_key (f : nat) (d : Z) (key r2 : string) :
  plain key = true ->
  parse_members (S f) d (String "034" (key +:+ String "034" (String ":" r2)))
  = match parse_value f d r2 with
    | None => None
    | Some (v, r3) =>
        match skip_space r3 with
        | String "," r4 =>
            match parse_members f d r4 with
            | Some (ms, r5) => Some ((key, v) :: ms, r5)
            | None => None
            end
        | String "}" r4 => Some ([(key, v)], r4)
        | _ => None
        end
    end.
Proof.
  intros H.
  change (parse_members (S f) d (String "034" (key +:+ String "034" (String ":" r2))))
    with (match scan_string (key +:+ String "034" (String ":" r2)) with
          | None => None
          | Some (key, r1) =>
              match skip_space r1 with
              | String ":" r2 =>
                  match parse_value f d r2 with
                  | None => None
                  | Some (v, r3) =>
                      match skip_space r3 with
                      | String "," r4 =>
                          match parse_members f d r4 with
                          | Some (ms, r5) => Some ((key, v) :: ms, r5)
                          | None => None
                          end
                      | String "}" r4 => Some ([(key, v)], r4)
                      | _ => None
                      end
                  end
              | _ => None
              end
          end).
  by rewrite scan_string_plain.
Qed.

Lemma is_field_event_event : is_field "event" "event" = true.
Proof. reflexivity. Qed.
Lemma is_field_event_page : is_field "event" "page" = false.
Proof. reflexivity. Qed.
Lemma is_field_page_page : is_field "page" "page" = true.
Proof. reflexivity. Qed.
Lemma is_field_id_id : is_field "id" "id" = true.
Proof. reflexivity. Qed.
Lemma is_field_id_title : is_field "id" "title" = false.
Proof. reflexivity. Qed.
Lemma is_field_title_title : is_field "title" "title" = true.
Proof. reflexivity. Qed.

Ltac cons_form := repeat (rewrite append_cons || rewrite append_nil_l).
Ltac scan_on := cbn [skip_space isSpace Ascii.eqb Bool.eqb orb option_map fst].

Lemma webhook_body_cons (e t : string) (n : Z) :
  webhook_body e n t
  = String "{" (String "034" ("event" +:+ String "034" (String ":"
      (String "034" (e +:+ String "034" (String ","
        (String "034" ("page" +:+ String "034" (String ":"
          (String "{" (String "034" ("id" +:+ String "034" (String ":"
            (pretty n +:+ String ","
              (String "034" ("title" +:+ String "034" (String ":"
                (String "034" (t +:+ String "034" "}}"))))))))))))))))))).
Proof. unfold webhook_body, dq. cons_form. reflexivity. Qed.

Lemma webhook_body_quoted_id_cons (e s t : string) :
  webhook_body_quoted_id e s t
  = String "{" (String "034" ("event" +:+ String "034" (String ":"
      (String "034" (e +:+ String "034" (String ","
        (String "034" ("page" +:+ String "034" (String ":"
          (String "{" (String "034" ("id" +:+ String "034" (String ":"
            (String "034" (s +:+ String "034" (String ","
              (String "034" ("title" +:+ String "034" (String ":"
                (String "034" (t +:+ String "034" "}}"))))))))))))))))))))).
Proof. unfold webhook_body_quoted_id, dq. cons_form. reflexivity. Qed.

Lemma health_body_cons (now : string) :
  health_body now
  = String "{" (String "034" ("status" +:+ String "034" (String ":"
      (String "034" ("healthy" +:+ String "034" (String ","
        (String "034" ("timestamp" +:+ String "034" (String ":"
          (String "034" (now +:+ String "034" "}"))))))))))).
Proof. unfold health_body, dq. cons_form. reflexivity. Qed.

(** The scanner on the payload: the tree of its two members. *)
Lemma readValue_webhook_body (e t : string) (n : Z) :
  plain e = true -> plain t = true ->
  readValue (webhook_body e n t)
  = Some (JObject [("event", JString e);
                   ("page", JObject [("id", JNumber (pretty n)); ("title", JString t)])]).
Proof.
  intros He Ht. unfold readValue.
  set (fuel := (2 * String.length (webhook_body e n t) + 2)%nat).
  assert (Hf : (8 <= fuel)%nat).
  { unfold fuel. rewrite webhook_body_cons. cbn [String.length].
    rewrite length_append. cbn [String.length]. lia. }
  destruct fuel as [|[|[|[|[|[|[|[|fuel]]]]]]]]; try lia. clear Hf.
  rewrite webhook_body_cons.
  rewrite parse_value_object by (unfold maxNestingDepth; lia).
  rewrite parse_members_key by done.
  rewrite parse_value_string by done. scan_on.
  rewrite parse_members_key by done.
  rewrite parse_value_object by (unfold maxNestingDepth; lia).
  rewrite parse_members_key by done.
  rewrite parse_value_number. scan_on.
  rewrite parse_members_key by done.
  rewrite parse_value_string by done. scan_on. reflexivity.
Qed.

Lemma readValue_webhook_body_quoted_id (e s t : string) :
  plain e = true -> plain s = true -> plain t = true ->
  readValue (webhook_body_quoted_id e s t)
  = Some (JObject [("event", JString e);
                   ("page", JObject [("id", JString s); ("title", JString t)])]).
Proof.
  intros He Hs Ht. unfold readValue.
  set (fuel := (2 * String.length (webhook_body_quoted_id e s t) + 2)%nat).
  assert (Hf : (8 <= fuel)%nat).
  { unfold fuel. rewrite webhook_body_quoted_id_cons. cbn [String.length].
    rewrite length_append. cbn [String.length]. lia. }
  destruct fuel as [|[|[|[|[|[|[|[|fuel]]]]]]]]; try lia. clear Hf.
  rewrite webhook_body_quoted_id_cons.
  rewrite parse_value_object by (unfold maxNestingDepth; lia).
  rewrite parse_members_key by done.
  rewrite parse_value_string by done. scan_on.
  rewrite parse_members_key by done.
  rewrite parse_value_object by (unfold maxNestingDepth; lia).
  rewrite parse_members_key by done.
  rewrite parse_value_string by done. scan_on.
  rewrite parse_members_key by done.
  rewrite parse_value_string by done. scan_on. reflexivity.
Qed.

(** Storing the tree of a payload into the zero struct. *)
Lemma unmarshal_webhook (e t : string) (id : json) :
  plain e = true -> plain t = true ->
  unmarshal (JObject [("event", JString e);
                      ("page", JObject [("id", id); ("title", JString t)])])
    (mkWebhook "" 0 "")
  = (mkWebhook e (fst (store_int id 0)) t, snd (store_int id 0)).
Proof.
  intros He Ht.
  cbn [unmarshal fold_left store_member]. rewrite is_field_event_event.
  cbn [store_string Event Page_ID Page_Title andb]. rewrite unquote_plain by done.
  cbn [store_member]. rewrite is_field_event_page, is_field_page_page.
  cbn [store_page fold_left store_page_member Event Page_ID Page_Title].
  rewrite is_field_id_id. destruct (store_int id 0) as [id' ok'].
  cbn [andb store_page_member fst snd]. rewrite is_field_id_title, is_field_title_title.
  cbn [store_string]. rewrite unquote_plain by done.
  by destruct ok'.
Qed.

(** What the handler does with a POST, by what the decoder says. *)
Lemma webhook_post_accepted (D : string -> option ConfluenceWebhook) (path body : string)
    (wh : ConfluenceWebhook) :
  D body = Some wh ->
  handleConfluenceWebhook D (fresh None) (mkRequest "POST" path body)
  = (mkRW ∅ (Some 200) "Webhook processed" None,
     ["Confluence event: " +:+ Event wh +:+ ", Page: " +:+ Page_Title wh +:+ nl]).
Proof. intros H. unfold handleConfluenceWebhook. cbn [Method Body]. by rewrite H. Qed.

Lemma webhook_post_rejected (D : string -> option ConfluenceWebhook) (path body : string) :
  D body = None ->
  let out := handleConfluenceWebhook D (fresh None) (mkRequest "POST" path body) in
  rw_status (fst out) = Some 400 /\ rw_body (fst out) = "Invalid payload" +:+ nl
  /\ snd out = [].
Proof. intros H. unfold handleConfluenceWebhook. cbn [Method Body]. by rewrite H. Qed.

(** X11: a payload written out from an event name, a page id and a title
    decodes to exactly these (the names being plain text, the id in the range
    of a 64-bit int), and a POST of it is answered 200 with
    [Webhook processed] and logged with its event and title. *)
Theorem webhook_accepts_encoded_payload (e t path : string) (n : Z) :
  plain e = true -> plain t = true -> - 2 ^ 63 <= n < 2 ^ 63 ->
  Decoder_Decode (webhook_body e n t) = Some (mkWebhook e n t)
  /\ handleConfluenceWebhook Decoder_Decode (fresh None)
       (mkRequest "POST" path (webhook_body e n t))
     = (mkRW ∅ (Some 200) "Webhook processed" None,
        ["Confluence event: " +:+ e +:+ ", Page: " +:+ t +:+ nl]).
Proof.
  intros He Ht Hn.
  assert (Hd : Decoder_Decode (webhook_body e n t) = Some (mkWebhook e n t)).
  { unfold Decoder_Decode. rewrite readValue_webhook_body, unmarshal_webhook by done.
    cbn [store_int]. rewrite strconv_ParseInt_pretty.
    assert ((- two63 <=? n) && (n <? two63) = true) as ->; [|done].
    unfold two63. apply andb_true_iff. split; [apply Z.leb_le | apply Z.ltb_lt]; lia. }
  split; [exact Hd|]. rewrite (webhook_post_accepted _ _ _ _ Hd). reflexivity.
Qed.

Lemma webhook_accepts_encoded_payload_witness :
  plain "page_created" = true /\ plain "T" = true /\ - 2 ^ 63 <= 1 < 2 ^ 63
  /\ webhook_body "page_created" 1 "T"
     = "{" +:+ dq +:+ "event" +:+ dq +:+ ":" +:+ dq +:+ "page_created" +:+ dq +:+ ","
       +:+ dq +:+ "page" +:+ dq +:+ ":{" +:+ dq +:+ "id" +:+ dq +:+ ":1,"
       +:+ dq +:+ "title" +:+ dq +:+ ":" +:+ dq +:+ "T" +:+ dq +:+ "}}"
  /\ handleConfluenceWebhook Decoder_Decode (fresh None)
       (mkRequest "POST" "/webhook/confluence" (webhook_body "page_created" 1 "T"))
     = (mkRW ∅ (Some 200) "Webhook processed" None,
        ["Confluence event: page_created, Page: T" +:+ nl]).
Proof.
  split; [reflexivity|]. split; [reflexivity|]. split; [lia|]. split; [reflexivity|].
  apply (webhook_accepts_encoded_payload "page_created" "T" "/webhook/confluence" 1);
    [reflexivity | reflexivity | lia].
Defined.

(** X12: a payload whose page id is a numeral outside the range of a 64-bit
    int, or a string instead of a number, does not decode: a POST of it is
    answered 400 with [Invalid payload] and nothing is logged. *)
Theorem webhook_rejects_unreadable_id (e s t path : string) (n : Z) :
  plain e = true -> plain s = true -> plain t = true ->
  ~ (- 2 ^ 63 <= n < 2 ^ 63) ->
  let rejected := fun body =>
    let out := handleConfluenceWebhook Decoder_Decode (fresh None)
                 (mkRequest "POST" path body) in
    Decoder_Decode body = None
    /\ rw_status (fst out) = Some 400 /\ rw_body (fst out) = "Invalid payload" +:+ nl
    /\ snd out = [] in
  rejected (webhook_body e n t) /\ rejected (webhook_body_quoted_id e s t).
Proof.
  intros He Hs Ht Hn rejected.
  assert (Hnum : Decoder_Decode (webhook_body e n t) = None).
  { unfold Decoder_Decode. rewrite readValue_webhook_body, unmarshal_webhook by done.
    cbn [store_int]. rewrite strconv_ParseInt_pretty.
    assert ((- two63 <=? n) && (n <? two63) = false) as ->; [|done].
    unfold two63. apply andb_false_iff.
    destruct (Z_lt_le_dec n (- 2 ^ 63)); [left; apply Z.leb_gt | right; apply Z.ltb_ge]; lia. }
  assert (Hstr : Decoder_Decode (webhook_body_quoted_id e s t) = None).
  { unfold Decoder_Decode.
    by rewrite readValue_webhook_body_quoted_id, unmarshal_webhook by done. }
  split.
  - split; [exact Hnum|]. apply webhook_post_rejected. exact Hnum.
  - split; [exact Hstr|]. apply webhook_post_rejected. exact Hstr.
Qed.

Lemma webhook_rejects_unreadable_id_witness :
  plain "page_created" = true /\ plain "7" = true /\ plain "T" = true
  /\ ~ (- 2 ^ 63 <= 2 ^ 63 < 2 ^ 63)
  /\ Decoder_Decode (webhook_body "page_created" (2 ^ 63) "T") = None
  /\ Decoder_Decode (webhook_body_quoted_id "page_created" "7" "T") = None.
Proof.
  split; [reflexivity|]. split; [reflexivity|]. split; [reflexivity|]. split; [lia|].
  destruct (webhook_rejects_unreadable_id "page_created" "7" "T" "/webhook/confluence"
              (2 ^ 63) eq_refl eq_refl eq_refl ltac:(lia)) as [(H1 & _) (H2 & _)].
  by split.
Defined.

(** X13: a body that is empty, holds white space only, or begins (after white
    space) with a byte no JSON value begins with does not decode: a POST of it
    is answered 400 with [Invalid payload] and nothing is logged. *)
Theorem webhook_rejects_body_without_value (path body : string) :
  value_start body = false ->
  let out := handleConfluenceWebhook Decoder_Decode (fresh None)
               (mkRequest "POST" path body) in
  Decoder_Decode body = None
  /\ rw_status (fst out) = Some 400 /\ rw_body (fst out) = "Invalid payload" +:+ nl
  /\ snd out = [].
Proof.
  intros H out.
  assert (Hd : Decoder_Decode body = None).
  { unfold value_start in H. unfold Decoder_Decode, readValue.
    replace (2 * String.length body + 2)%nat with (S (S (2 * String.length body))) by lia.
    cbn [parse_value]. destruct (skip_space body) as [|c r]; [done|].
    unfold starts_value in H.
    repeat (apply orb_false_iff in H as [H ?]).
    repeat match goal with E : _ = false |- _ => rewrite E; clear E end.
    reflexivity. }
  split; [exact Hd|]. apply webhook_post_rejected. exact Hd.
Qed.

Lemma webhook_rejects_body_without_value_witness :
  value_start "" = false /\ value_start "event=page_created" = false
  /\ Decoder_Decode "" = None /\ Decoder_Decode "event=page_created" = None.
Proof.
  split; [reflexivity|]. split; [reflexivity|]. split.
  - apply (webhook_rejects_body_without_value "/webhook/confluence" "" eq_refl).
  - apply (webhook_rejects_body_without_value "/webhook/confluence" "event=page_created"
             eq_refl).
Defined.

(** X14: an object with one member, a string: under the key event (in any
    letter case) the string becomes the event; under the key page it is a type
    error and the body does not decode; under any other key the member is
    skipped, the body decodes to the zero webhook, and a POST of it is
    answered 200 and logged with an empty event and an empty title. *)
Theorem webhook_single_member (k v path : string) :
  plain k = true -> plain v = true ->
  Decoder_Decode (single_member_body k v)
  = (if is_field "event" k then Some (mkWebhook v 0 "")
     else if is_field "page" k then None
     else Some (mkWebhook "" 0 ""))
  /\ (is_field "event" k = false -> is_field "page" k = false ->
      handleConfluenceWebhook Decoder_Decode (fresh None)
        (mkRequest "POST" path (single_member_body k v))
      = (mkRW ∅ (Some 200) "Webhook processed" None,
         ["Confluence event: , Page: " +:+ nl])).
Proof.
  intros Hk Hv.
  assert (Hd : Decoder_Decode (single_member_body k v)
               = (if is_field "event" k then Some (mkWebhook v 0 "")
                  else if is_field "page" k then None
                  else Some (mkWebhook "" 0 ""))).
  { unfold Decoder_Decode, readValue.
    assert (Hb : single_member_body k v
                 = String "{" (String "034" (k +:+ String "034" (String ":"
                     (String "034" (v +:+ String "034" "}")))))).
    { unfold single_member_body, dq. cons_form. reflexivity. }
    set (fuel := (2 * String.length (single_member_body k v) + 2)%nat).
    assert (Hf : (3 <= fuel)%nat).
    { unfold fuel. rewrite Hb. cbn [String.length]. lia. }
    destruct fuel as [|[|[|fuel]]]; try lia. clear Hf.
    rewrite Hb.
    rewrite parse_value_object by (unfold maxNestingDepth; lia).
    rewrite parse_members_key by exact Hk.
    rewrite parse_value_string by exact Hv. scan_on.
    cbn [unmarshal fold_left store_member].
    destruct (is_field "event" k).
    - cbn [store_string Event Page_ID Page_Title andb].
      rewrite unquote_plain by exact Hv. reflexivity.
    - destruct (is_field "page" k); reflexivity. }
  split; [exact Hd|]. intros He Hp. rewrite He, Hp in Hd.
  rewrite (webhook_post_accepted _ _ _ _ Hd). reflexivity.
Qed.

Lemma webhook_single_member_witness :
  plain "EVENT" = true /\ plain "user" = true /\ plain "alice" = true
  /\ Decoder_Decode (single_member_body "EVENT" "alice") = Some (mkWebhook "alice" 0 "")
  /\ Decoder_Decode (single_member_body "user" "alice") = Some (mkWebhook "" 0 "").
Proof.
  split; [reflexivity|]. split; [reflexivity|]. split; [reflexivity|].
  destruct (webhook_single_member "EVENT" "alice" "/webhook/confluence" eq_refl eq_refl)
    as [H1 _].
  destruct (webhook_single_member "user" "alice" "/webhook/confluence" eq_refl eq_refl)
    as [H2 _].
  split; [exact H1 | exact H2].
Defined.

(** X15: on a live connection the health check writes a body that scans as
    one JSON object with the members status, the string healthy, and
    timestamp, the formatted time (plain text, as an RFC 3339 time is). *)
Theorem health_body_is_json (now : string) (r : Request) :
  plain now = true ->
  rw_body (healthCheck now (fresh None) r) = health_body now
  /\ readValue (health_body now)
     = Some (JObject [("status", JString "healthy"); ("timestamp", JString now)]).
Proof.
  intros Hnow. split; [reflexivity|]. unfold readValue.
  set (fuel := (2 * String.length (health_body now) + 2)%nat).
  assert (Hf : (4 <= fuel)%nat).
  { unfold fuel. rewrite health_body_cons. cbn [String.length]. lia. }
  destruct fuel as [|[|[|[|fuel]]]]; try lia. clear Hf.
  rewrite health_body_cons.
  rewrite parse_value_object by (unfold maxNestingDepth; lia).
  rewrite parse_members_key by done.
  rewrite parse_value_string by done. scan_on.
  rewrite parse_members_key by done.
  rewrite parse_value_string by done. scan_on. reflexivity.
Qed.

Lemma health_body_is_json_witness :
  plain "2026-11-01T10:00:00+01:00" = true
  /\ readValue (rw_body (healthCheck "2026-11-01T10:00:00+01:00" (fresh None)
                           (mkRequest "GET" "/health" "")))
     = Some (JObject [("status", JString "healthy");
                      ("timestamp", JString "2026-11-01T10:00:00+01:00")]).
Proof.
  split; [reflexivity|].
  destruct (health_body_is_json "2026-11-01T10:00:00+01:00"
              (mkRequest "GET" "/health" "") eq_refl) as [Hbody Hjson].
  rewrite Hbody. exact Hjson.
Defined.

Lemma webhook_body_then_cons (e t junk : string) (n : Z) :
  webhook_body e n t +:+ junk
  = String "{" (String "034" ("event" +:+ String "034" (String ":"
      (String "034" (e +:+ String "034" (String ","
        (String "034" ("page" +:+ String "034" (String ":"
          (String "{" (String "034" ("id" +:+ String "034" (String ":"
            (pretty n +:+ String ","
              (String "034" ("title" +:+ String "034" (String ":"
                (String "034" (t +:+ String "034"
                  (String "}" (String "}" junk))))))))))))))))))))).
Proof.
  unfold webhook_body, dq.
  repeat (rewrite append_cons || rewrite append_nil_l || rewrite append_assoc).
  reflexivity.
Qed.

(** X21: what follows the payload in the body is not read: the payload
    written out from an event name, a page id and a title, followed by any
    bytes, decodes to that webhook, and a POST of it is answered 200 with
    [Webhook processed]. *)
Theorem webhook_ignores_trailing_bytes (e t junk path : string) (n : Z) :
  plain e = true -> plain t = true -> - 2 ^ 63 <= n < 2 ^ 63 ->
  Decoder_Decode (webhook_body e n t +:+ junk) = Some (mkWebhook e n t)
  /\ handleConfluenceWebhook Decoder_Decode (fresh None)
       (mkRequest "POST" path (webhook_body e n t +:+ junk))
     = (mkRW ∅ (Some 200) "Webhook processed" None,
        ["Confluence event: " +:+ e +:+ ", Page: " +:+ t +:+ nl]).
Proof.
  intros He Ht Hn.
  assert (Hd : Decoder_Decode (webhook_body e n t +:+ junk) = Some (mkWebhook e n t)).
  { unfold Decoder_Decode, readValue.
    set (fuel := (2 * String.length (webhook_body e n t +:+ junk) + 2)%nat).
    assert (Hf : (8 <= fuel)%nat).
    { unfold fuel. rewrite webhook_body_then_cons. cbn [String.length].
      rewrite length_append. cbn [String.length]. lia. }
    destruct fuel as [|[|[|[|[|[|[|[|fuel]]]]]]]]; try lia. clear Hf.
    rewrite webhook_body_then_cons.
    rewrite parse_value_object by (unfold maxNestingDepth; lia).
    rewrite parse_members_key by exact eq_refl.
    rewrite parse_value_string by exact He. scan_on.
    rewrite parse_members_key by exact eq_refl.
    rewrite parse_value_object by (unfold maxNestingDepth; lia).
    rewrite parse_members_key by exact eq_refl.
    rewrite parse_value_number. scan_on.
    rewrite parse_members_key by exact eq_refl.
    rewrite parse_value_string by exact Ht. scan_on.
    rewrite unmarshal_webhook by assumption.
    cbn [store_int]. rewrite strconv_ParseInt_pretty.
    assert ((- two63 <=? n) && (n <? two63) = true) as ->; [|reflexivity].
    unfold two63. apply andb_true_iff. split; [apply Z.leb_le | apply Z.ltb_lt]; lia. }
  split; [exact Hd|]. rewrite (webhook_post_accepted _ _ _ _ Hd). reflexivity.
Qed.

Lemma webhook_ignores_trailing_bytes_witness :
  plain "page_created" = true /\ plain "T" = true /\ - 2 ^ 63 <= 1 < 2 ^ 63
  /\ Decoder_Decode (webhook_body "page_created" 1 "T" +:+ " trailing, not JSON")
     = Some (mkWebhook "page_created" 1 "T").
Proof.
  split; [reflexivity|]. split; [reflexivity|]. split; [lia|].
  apply (webhook_ignores_trailing_bytes "page_created" "T" " trailing, not JSON"
           "/webhook/confluence" 1); [reflexivity | reflexivity | lia].
Defined.

(** ** Durations in whole seconds *)

(** [leadingInt] reads a numeral that stays within a tenth of 1<<63. *)
Lemma leadingInt_digits (ds : string) (c : ascii) (rest : string) (x v : Z) :
  0 <= x -> digits_value ds x = Some v -> v <= two63 / 10 -> is_digit c = false ->
  leadingInt (ds +:+ String c rest) x = Some (v, String c rest).
Proof.
  revert x. induction ds as [|d ds IH]; intros x Hx Hv Hle Hc.
  - rewrite append_nil_l. cbn [leadingInt]. rewrite Hc.
    cbn [digits_value] in Hv. by injection Hv as ->.
  - rewrite append_cons. cbn [leadingInt]. cbn [digits_value] in Hv.
    destruct (is_digit d) eqn:Hd; [|done].
    assert (Hdv : 0 <= digit_val d <= 9).
    { destruct (is_digit_cases d Hd) as [->|[->|[->|[->|[->|[->|[->|[->|[->| ->]]]]]]]]];
        vm_compute; split; discriminate. }
    assert (Hmono : forall s a b, 0 <= a -> digits_value s a = Some b -> a <= b).
    { clear. induction s as [|y s IHs]; intros a b Ha Hb; cbn [digits_value] in Hb.
      - injection Hb as ->. lia.
      - destruct (is_digit y) eqn:Hy; [|done].
        assert (0 <= digit_val y).
        { destruct (is_digit_cases y Hy) as [->|[->|[->|[->|[->|[->|[->|[->|[->| ->]]]]]]]]];
            vm_compute; discriminate. }
        apply IHs in Hb; lia. }
    pose proof (Hmono ds (x * 10 + digit_val d) v ltac:(lia) Hv) as Hacc.
    assert ((two63 / 10 <? x) = false) as -> by (apply Z.ltb_ge; lia).
    assert ((two63 <? x * 10 + digit_val d) = false) as ->.
    { apply Z.ltb_ge. unfold two63 in *.
      change (2 ^ 63 / 10) with 922337203685477580 in *. lia. }
    apply IH; [lia | done | done | done].
Qed.

Lemma ParseDuration_loop_seconds (fuel : nat) (c : ascii) (ds : string) (n : Z) :
  is_digit c = true -> leadingInt (String c (ds +:+ "s")) 0 = Some (n, "s") ->
  0 <= n <= 9223372036 ->
  ParseDuration_loop (S (S fuel)) (String c (ds +:+ "s")) 0 = Some (n * Second).
Proof.
  intros Hc Hlead Hn.
  cbn [ParseDuration_loop]. rewrite Hc, orb_true_r. cbn [negb]. rewrite Hlead.
  assert (Nat.eqb (String.length (String c (ds +:+ "s"))) (String.length "s") = false)
    as ->.
  { apply Nat.eqb_neq. cbn [String.length]. rewrite length_append.
    cbn [String.length]. lia. }
  cbn [negb andb].
  change (unit_span "s") with ("s", "").
  cbv beta iota. change (String.eqb "s" "") with false. cbv iota.
  change (unitMap !! "s") with (Some 1000000000).
  cbv beta iota zeta.
  change (two63 `div` 1000000000) with 9223372036.
  assert ((9223372036 <? n) = false) as -> by (apply Z.ltb_ge; lia).
  change (0 <? 0) with false. cbn [andb].
  assert ((0 + n * 1000000000) `mod` two64 = n * 1000000000) as ->.
  { rewrite Z.add_0_l. apply Z.mod_small. unfold two64. lia. }
  assert ((two63 <? n * 1000000000) = false) as ->.
  { apply Z.ltb_ge. unfold two63. lia. }
  reflexivity.
Qed.

(** X22: a timeout variable that holds a number of whole seconds followed by
    the unit s, at most 9223372036 of them, is read back exactly: the numeral
    of [n] and [s] give [n] seconds. *)
Theorem seconds_round_trip (env : gmap string string) (key : string) (n : Z)
    (dflt : Duration) :
  0 <= n <= 9223372036 ->
  time_ParseDuration (pretty n +:+ "s") = Some (n * Second)
  /\ getDurationEnv time_ParseDuration (<[key := pretty n +:+ "s"]> env) key dflt
     = n * Second.
Proof.
  intros Hn.
  assert (Hshape : exists c ds, pretty n = String c ds /\ is_digit c = true
                     /\ digits_value (String c ds) 0 = Some n).
  { destruct n as [|p|p]; [by exists "0"%char, "" | | lia].
    destruct (pretty_pos_shape p) as (c & ds & Hs & Hc & _ & _ & Hv).
    by exists c, ds. }
  destruct Hshape as (c & ds & Hs & Hc & Hv).
  assert (Hlead : leadingInt (String c (ds +:+ "s")) 0 = Some (n, "s")).
  { rewrite <- append_cons. apply leadingInt_digits; [lia | done | | done].
    unfold two63. change (2 ^ 63 / 10) with 922337203685477580. lia. }
  assert (Hp : time_ParseDuration (pretty n +:+ "s") = Some (n * Second)).
  { rewrite Hs, append_cons. unfold time_ParseDuration.
    assert (Hne : String.eqb (String c (ds +:+ "s")) "0" = false).
    { apply String.eqb_neq. intros E. injection E as _ E. by destruct ds. }
    assert (Hloop := ParseDuration_loop_seconds (String.length (ds +:+ "s")) c ds n
                       Hc Hlead Hn).
    assert (Hmax : (two63 - 1 <? n * Second) = false).
    { apply Z.ltb_ge. unfold two63, Second. lia. }
    destruct (is_digit_cases c Hc) as [->|[->|[->|[->|[->|[->|[->|[->|[->| ->]]]]]]]]];
      cbv beta iota zeta; rewrite Hne; cbn [String.eqb String.length];
      rewrite Hloop; by rewrite Hmax. }
  split; [done|]. unfold getDurationEnv. rewrite lookup_insert_eq. by rewrite Hp.
Qed.

Lemma seconds_round_trip_witness :
  0 <= 30 <= 9223372036
  /\ getDurationEnv time_ParseDuration {[ "READ_TIMEOUT" := "30s" ]} "READ_TIMEOUT"
       (15 * Second)
     = 30 * Second.
Proof.
  split; [lia|].
  apply (seconds_round_trip ∅ "READ_TIMEOUT" 30 (15 * Second)). lia.
Defined.

(** ** The webhook handler on the JSON decoder *)



End cmd_facts.
